(** * Substation DSL: transformer (dsl/parser.py) and validator (dsl/validator.py)

    A shallow embedding of the parse-tree-to-IR transformer and of the
    semantic validator, together with the properties stated about them.

    Python values are embedded as the inductive type [PyVal]; dictionaries
    are insertion-ordered association lists with string keys; floating
    point numbers are IEEE binary64 values ([spec_float] at precision 53);
    the mutable IR object is threaded through a state-and-exception monad. *)

From Stdlib Require Import List String Ascii ZArith Bool Lia.
From Stdlib Require Import Floats.SpecFloat.
Import ListNotations.

#[local] Set Warnings "-register-all".
Local Open Scope string_scope.
Local Open Scope list_scope.

(* ================================================================== *)
(** ** IEEE binary64 arithmetic, as used by Python's [float] *)

Module Float64.

Definition prec : Z := 53.
Definition emax : Z := 1024.

Definition float := spec_float.

Definition sub (x y : float) : float := SFsub prec emax x y.
Definition mul (x y : float) : float := SFmul prec emax x y.
Definition div (x y : float) : float := SFdiv prec emax x y.
Definition abs (x : float) : float := SFabs x.
Definition ltb (x y : float) : bool := SFltb x y.
Definition eqb (x y : float) : bool := SFeqb x y.

(** [float(z)] for an integer [z], rounded to nearest even. *)
Definition of_Z (z : Z) : float := binary_normalize prec emax z 0 false.

Definition is_finite (x : float) : bool :=
  match x with
  | S754_zero _ | S754_finite _ _ _ => true
  | _ => false
  end.

Definition is_zero (x : float) : bool :=
  match x with
  | S754_zero _ => true
  | _ => false
  end.

(** The literal [0.15]: the binary64 value nearest to 15/100. *)
Definition c0_15 : float := div (of_Z 15) (of_Z 100).

(** Exact comparison of an integer with a float (Python compares an [int]
    with a [float] without rounding the integer). *)
Definition Z_compare_float (z : Z) (x : float) : option comparison :=
  match x with
  | S754_nan => None
  | S754_infinity s => Some (if s then Gt else Lt)
  | S754_zero _ => Some (Z.compare z 0)
  | S754_finite s m e =>
      let v := if s then Z.neg m else Z.pos m in
      Some (if (0 <=? e)%Z
            then Z.compare z (v * 2 ^ e)
            else Z.compare (z * 2 ^ (- e)) v)
  end.

End Float64.

(* ================================================================== *)
(** ** Insertion-ordered dictionaries with string keys *)

Section Dict.
Context {V : Type}.

Definition dict := list (string * V).

Fixpoint dict_get (k : string) (d : dict) : option V :=
  match d with
  | [] => None
  | (k', v) :: d' => if String.eqb k k' then Some v else dict_get k d'
  end.

Definition dict_mem (k : string) (d : dict) : bool :=
  match dict_get k d with Some _ => true | None => false end.

(** [d[k] = v]: overwrite in place when the key exists, else append. *)
Fixpoint dict_set (k : string) (v : V) (d : dict) : dict :=
  match d with
  | [] => [(k, v)]
  | (k', v') :: d' =>
      if String.eqb k k' then (k', v) :: d' else (k', v') :: dict_set k v d'
  end.

(** [d.update(e)]: the items of [e] are assigned into [d] in order. *)
Definition dict_update (d e : dict) : dict :=
  fold_left (fun acc kv => dict_set (fst kv) (snd kv) acc) e d.

Definition dict_keys (d : dict) : list string := map fst d.
Definition dict_values (d : dict) : list V := map snd d.
Definition dict_len (d : dict) : nat := List.length d.

(** A Python dict holds each key once. *)
Definition dict_wf (d : dict) : Prop := NoDup (dict_keys d).
End Dict.

Arguments dict V : clear implicits.

(* ================================================================== *)
(** ** Python values *)

Inductive PyVal : Type :=
| PNone
| PBool (b : bool)
| PInt (z : Z)
| PNum (x : Float64.float)
| PStr (s : string)
| PToken (type value : string)            (* lark.Token, a subclass of str *)
| PList (l : list PyVal)
| PTuple (l : list PyVal)
| PDict (d : list (string * PyVal))
| PTree (data : string) (children : list PyVal) (meta : Z * Z).

(** Syntax trees handed over by the grammar front end: rule nodes with
    their position, and tokens. *)
Inductive Tree : Type :=
| Node (data : string) (children : list Tree) (meta : Z * Z)
| Tok (type value : string).

Definition truthy (v : PyVal) : bool :=
  match v with
  | PNone => false
  | PBool b => b
  | PInt z => negb (z =? 0)%Z
  | PNum x => negb (Float64.is_zero x)
  | PStr s | PToken _ s => negb (String.eqb s "")
  | PList l | PTuple l => negb (Nat.eqb (List.length l) 0)
  | PDict d => negb (Nat.eqb (List.length d) 0)
  | PTree _ _ _ => true
  end.

Definition is_dict (v : PyVal) : bool :=
  match v with PDict _ => true | _ => false end.
Definition is_list (v : PyVal) : bool :=
  match v with PList _ => true | _ => false end.
Definition is_tuple (v : PyVal) : bool :=
  match v with PTuple _ => true | _ => false end.
Definition is_token (v : PyVal) : bool :=
  match v with PToken _ _ => true | _ => false end.
(** [isinstance(v, str)]: a lark Token is a str as well. *)
Definition is_str (v : PyVal) : bool :=
  match v with PStr _ | PToken _ _ => true | _ => false end.
(** [isinstance(v, (int, float))]: bool is a subclass of int. *)
Definition is_number (v : PyVal) : bool :=
  match v with PBool _ | PInt _ | PNum _ => true | _ => false end.

Definition as_str (v : PyVal) : option string :=
  match v with PStr s | PToken _ s => Some s | _ => None end.

(** Values that can be hashed (dictionary keys, set members). *)
Fixpoint hashable (v : PyVal) : bool :=
  match v with
  | PList _ | PDict _ => false
  | PTuple l | PTree _ l _ => forallb hashable l
  | _ => true
  end.

(** [v == s] for a string literal [s]. *)
Definition str_eq (v : PyVal) (s : string) : bool :=
  match as_str v with Some s' => String.eqb s' s | None => false end.

(** [v in [s1, ..., sn]] for a list of string literals. *)
Definition in_strs (v : PyVal) (l : list string) : bool :=
  existsb (str_eq v) l.

(* ================================================================== *)
(** ** Numbers: the arithmetic of [int], [bool] and [float] operands *)

Inductive num : Type :=
| NInt (z : Z)
| NFloat (x : Float64.float).

Definition as_num (v : PyVal) : option num :=
  match v with
  | PBool b => Some (NInt (if b then 1 else 0))
  | PInt z => Some (NInt z)
  | PNum x => Some (NFloat x)
  | _ => None
  end.

(** [float(n)]; an integer beyond the binary64 range has no float
    ([None] stands for Python's OverflowError). *)
Definition to_float (n : num) : option Float64.float :=
  match n with
  | NFloat x => Some x
  | NInt z =>
      let f := Float64.of_Z z in
      if Float64.is_finite f then Some f else None
  end.

Definition num_sub (a b : num) : option num :=
  match a, b with
  | NInt x, NInt y => Some (NInt (x - y))
  | _, _ =>
      match to_float a, to_float b with
      | Some x, Some y => Some (NFloat (Float64.sub x y))
      | _, _ => None
      end
  end.

Definition num_abs (a : num) : num :=
  match a with
  | NInt z => NInt (Z.abs z)
  | NFloat x => NFloat (Float64.abs x)
  end.

(** [a > b] *)
Definition num_gt (a b : num) : bool :=
  match a, b with
  | NInt x, NInt y => (y <? x)%Z
  | NInt x, NFloat y =>
      match Float64.Z_compare_float x y with Some Gt => true | _ => false end
  | NFloat x, NInt y =>
      match Float64.Z_compare_float y x with Some Lt => true | _ => false end
  | NFloat x, NFloat y => Float64.ltb y x
  end.

(** [max(a, b)]: the first argument is kept unless the second is greater. *)
Definition num_max (a b : num) : num := if num_gt b a then b else a.

(** [c * n] for a float constant [c]. *)
Definition float_mul_num (c : Float64.float) (n : num) : option num :=
  match to_float n with
  | Some x => Some (NFloat (Float64.mul c x))
  | None => None
  end.

(* ================================================================== *)
(** ** The intermediate representation (dsl/parser.py, IR types) *)

Record ObjectIR : Type := mkObjectIR {
  obj_id : string;
  obj_type : string;
  obj_attrs : dict PyVal;
  obj_loc : PyVal          (* (line, column) of the ADD_* statement *)
}.

Record PageIR : Type := mkPageIR {
  page_id : string;
  page_attrs : dict PyVal;
  page_loc : PyVal
}.

Record IR : Type := mkIR {
  objects : dict ObjectIR;
  series : list PyVal;      (* the entries appended by CONNECT *)
  pages : dict PageIR;
  style : dict PyVal;
  meta : dict PyVal
}.

(** [IR()]: every field starts from its default factory. *)
Definition IR_new : IR := mkIR [] [] [] [] [].

(* ================================================================== *)
(** ** Exceptions, and the state-and-exception monad over the IR *)

(** A validation error is identified by its code (the message, which
    names ids and voltages, is not modelled); a builtin exception by its
    class and, where the program writes one, its message. *)
Inductive exn : Type :=
| PyExc (cls msg : string)                 (* a builtin exception *)
| DSLValidationError (code : string)
| VisitError (rule : string) (orig : exn)  (* lark wraps handler failures *)
| ParseError (line column : option Z).

Definition TypeError : exn := PyExc "TypeError" "".
Definition IndexError : exn := PyExc "IndexError" "".
Definition ValueError (msg : string) : exn := PyExc "ValueError" msg.

Definition M (A : Type) : Type := IR -> (exn + A) * IR.

Definition ret {A} (a : A) : M A := fun s => (inr a, s).
Definition raise {A} (e : exn) : M A := fun s => (inl e, s).
Definition bind {A B} (m : M A) (k : A -> M B) : M B :=
  fun s =>
    match m s with
    | (inr a, s') => k a s'
    | (inl e, s') => (inl e, s')
    end.
Definition gets {A} (f : IR -> A) : M A := fun s => (inr (f s), s).
Definition modify (f : IR -> IR) : M unit := fun s => (inr tt, f s).

Declare Scope monad_scope.
Delimit Scope monad_scope with monad.
Notation "x <- m ;; k" := (bind m (fun x => k))
  (at level 61, m at next level, right associativity) : monad_scope.
Notation "m ;;; k" := (bind m (fun _ => k))
  (at level 61, right associativity) : monad_scope.
Local Open Scope monad_scope.

(** [for x in l: body(x)] *)
Fixpoint for_each {A} (l : list A) (body : A -> M unit) : M unit :=
  match l with
  | [] => ret tt
  | x :: l' => body x ;;; for_each l' body
  end.

(** Lift a pure computation that may raise. *)
Definition lift {A} (r : exn + A) : M A :=
  match r with inl e => raise e | inr a => ret a end.

Definition when_ (b : bool) (m : M unit) : M unit := if b then m else ret tt.

(* ================================================================== *)
(** ** Sequence protocol on Python values *)

Fixpoint chars (s : string) : list PyVal :=
  match s with
  | EmptyString => []
  | String c s' => PStr (String c EmptyString) :: chars s'
  end.

(** [iter(v)]: the items a [for] loop visits; [None] when [v] is not
    iterable (TypeError). *)
Definition py_iter (v : PyVal) : option (list PyVal) :=
  match v with
  | PList l | PTuple l => Some l
  | PStr s | PToken _ s => Some (chars s)
  | PDict d => Some (map (fun kv => PStr (fst kv)) d)
  | _ => None
  end.

(** [iter(v[1:])]: slicing is defined on lists, tuples and strings.
    On a dict the subscript raises: TypeError (unhashable slice) up to
    Python 3.11, which is what the callers of this function answer;
    from Python 3.12 on a slice can be hashed and the same expression
    raises KeyError. *)
Definition py_tail (v : PyVal) : option (list PyVal) :=
  match v with
  | PList l | PTuple l => Some (tl l)
  | PStr s | PToken _ s => Some (tl (chars s))
  | _ => None
  end.

Fixpoint zip {A B} (l : list A) (l' : list B) : list (A * B) :=
  match l, l' with
  | x :: t, y :: t' => (x, y) :: zip t t'
  | _, _ => []
  end.

Fixpoint enumerate_from {A} (i : nat) (l : list A) : list (nat * A) :=
  match l with
  | [] => []
  | x :: t => (i, x) :: enumerate_from (S i) t
  end.
Definition enumerate {A} (l : list A) : list (nat * A) := enumerate_from 0 l.

(* ================================================================== *)
(** ** The semantic validator (dsl/validator.py) *)

Definition E_ID_DUP : exn := DSLValidationError "E.ID.DUP".
Definition E_CONNECT_EMPTY : exn := DSLValidationError "E.CONNECT.EMPTY".
Definition E_CONNECT_ENDPOINT : exn := DSLValidationError "E.CONNECT.ENDPOINT".
Definition E_VOLT_MISMATCH : exn := DSLValidationError "E.VOLT.MISMATCH".
Definition E_PROT_BRK_UNUSED : exn := DSLValidationError "E.PROT.BRK_UNUSED".

(** A [for] loop whose body may raise: the first exception ends it. *)
Fixpoint first_error {A} (f : A -> exn + unit) (l : list A) : exn + unit :=
  match l with
  | [] => inr tt
  | x :: l' =>
      match f x with
      | inl e => inl e
      | inr _ => first_error f l'
      end
  end.

(** [d.get(k)] for an attribute map: [None] when the key is absent. *)
Definition attr_get (d : dict PyVal) (k : string) : PyVal :=
  match dict_get k d with Some v => v | None => PNone end.

Definition is_none (v : PyVal) : bool :=
  match v with PNone => true | _ => false end.

(** [ir.objects.get(k)]: the key must be hashable; only a string can be
    equal to one of the table's keys. *)
Definition objects_get (objs : dict ObjectIR) (k : PyVal)
  : exn + option ObjectIR :=
  if hashable k then
    inr (match as_str k with
         | Some s => dict_get s objs
         | None => None
         end)
  else inl TypeError.

Definition _kv_of (ir : IR) (obj_id : PyVal) : exn + PyVal :=
  match objects_get (objects ir) obj_id with
  | inl e => inl e
  | inr None => inr PNone
  | inr (Some o) => inr (attr_get (obj_attrs o) "kv")
  end.

(** [{"TRANSFORMER","BUS"} & {oa.type, ob.type}] is non-empty. *)
Definition bus_or_transformer (oa ob : ObjectIR) : bool :=
  existsb (fun t => String.eqb t "TRANSFORMER" || String.eqb t "BUS")
          [obj_type oa; obj_type ob].

(** [abs(kva-kvb) > 0.15*max(kva, kvb)] *)
Definition volt_exceeds (kva kvb : PyVal) : exn + bool :=
  match as_num kva, as_num kvb with
  | Some a, Some b =>
      match num_sub a b, float_mul_num Float64.c0_15 (num_max a b) with
      | Some d, Some t => inr (num_gt (num_abs d) t)
      | _, _ => inl (PyExc "OverflowError" "")
      end
  | _, _ => inl TypeError
  end.

(** Body of the voltage loop, for one adjacent pair [(a, b)]. *)
Definition check_pair (objs : dict ObjectIR) (ab : PyVal * PyVal)
  : exn + unit :=
  let (a, b) := ab in
  if is_dict a || is_dict b then inr tt      (* skip endpoints *)
  else
    match objects_get objs a, objects_get objs b with
    | inl e, _ => inl e
    | _, inl e => inl e
    | inr (Some oa), inr (Some ob) =>
        if bus_or_transformer oa ob then inr tt
        else
          let kva := attr_get (obj_attrs oa) "kv" in
          let kvb := attr_get (obj_attrs ob) "kv" in
          if negb (is_none kva) && negb (is_none kvb) then
            match volt_exceeds kva kvb with
            | inl e => inl e
            | inr true => inl E_VOLT_MISMATCH
            | inr false => inr tt
            end
          else inr tt
    | _, _ => inr tt                         (* an id not in the table *)
    end.

(** Body of the endpoint loop, for one enumerated item of a chain of
    [n] items. *)
Definition check_endpoint (n : nat) (iv : nat * PyVal) : exn + unit :=
  let (i, itm) := iv in
  if is_dict itm then
    if Nat.eqb i 0 || Nat.eqb i (n - 1) then inr tt
    else inl E_CONNECT_ENDPOINT
  else inr tt.

(** Body of the loop over [ir.series]. *)
Definition check_chain (objs : dict ObjectIR) (chain : PyVal) : exn + unit :=
  if negb (truthy chain) then inl E_CONNECT_EMPTY
  else
    match py_iter chain with
    | None => inl TypeError
    | Some items =>
        match first_error (check_endpoint (List.length items))
                          (enumerate items) with
        | inl e => inl e
        | inr _ =>
            match py_tail chain with
            | None => inl TypeError
            | Some rest => first_error (check_pair objs) (zip items rest)
            end
        end
    end.

(** [{oid for oid, o in ir.objects.items() if o.type == "BREAKER"}] *)
Definition breakers (objs : dict ObjectIR) : list string :=
  map fst (filter (fun kv => String.eqb (obj_type (snd kv)) "BREAKER") objs).

(** The strings among the items of one chain. *)
Definition strs_of (items : list PyVal) : list string :=
  flat_map (fun v => match as_str v with Some s => [s] | None => [] end) items.

(** [{oid for chain in ir.series for oid in chain if isinstance(oid, str)}] *)
Fixpoint in_series (chains : list PyVal) : exn + list string :=
  match chains with
  | [] => inr []
  | chain :: rest =>
      match py_iter chain with
      | None => inl TypeError
      | Some items =>
          match in_series rest with
          | inl e => inl e
          | inr l => inr (strs_of items ++ l)
          end
      end
  end.

Definition mem_str (s : string) (l : list string) : bool :=
  existsb (String.eqb s) l.

Definition check_breakers (objs : dict ObjectIR) (chains : list PyVal)
  : exn + unit :=
  let brks := breakers objs in
  match in_series chains with
  | inl e => inl e
  | inr used =>
      first_error (fun brk => if mem_str brk used then inr tt
                              else inl E_PROT_BRK_UNUSED) brks
  end.

(** [validate(ir)], run on the IR held in the state. *)
Definition validate : M unit :=
  (* 1) ID uniqueness *)
  objs <- gets objects ;;
  when_ (negb (Nat.eqb (List.length (nodup string_dec (dict_keys objs)))
                       (dict_len objs)))
        (raise E_ID_DUP) ;;;
  (* 2), 3) chains *)
  chains <- gets series ;;
  for_each chains (fun chain =>
    objs <- gets objects ;; lift (check_chain objs chain)) ;;;
  (* 4) breakers *)
  objs <- gets objects ;;
  chains <- gets series ;;
  lift (check_breakers objs chains).

(** The outcome of [validate(ir)]: the exception raised, if any. *)
Definition validate_result (ir : IR) : exn + unit := fst (validate ir).

(* ================================================================== *)
(** ** String helpers and [float(str)] *)

Fixpoint str_drop_last (s : string) : string :=
  match s with
  | EmptyString => EmptyString
  | String c EmptyString => EmptyString
  | String c s' => String c (str_drop_last s')
  end.

(** [s[1:-1]] *)
Definition slice_1_m1 (s : string) : string :=
  match s with
  | EmptyString => EmptyString
  | String _ s' => str_drop_last s'
  end.

Definition is_quote (c : ascii) : bool :=
  Nat.eqb (nat_of_ascii c) 34 || Nat.eqb (nat_of_ascii c) 39.

Fixpoint lstrip (p : ascii -> bool) (s : string) : string :=
  match s with
  | EmptyString => EmptyString
  | String c s' => if p c then lstrip p s' else s
  end.

Fixpoint str_rev_onto (s acc : string) : string :=
  match s with
  | EmptyString => acc
  | String c s' => str_rev_onto s' (String c acc)
  end.
Definition str_rev (s : string) : string := str_rev_onto s EmptyString.

(** [s.strip(chars)] for the characters accepted by [p]. *)
Definition strip (p : ascii -> bool) (s : string) : string :=
  str_rev (lstrip p (str_rev (lstrip p s))).

Definition is_space (c : ascii) : bool :=
  let n := nat_of_ascii c in
  Nat.eqb n 32 || (Nat.leb 9 n && Nat.leb n 13) || (Nat.leb 28 n && Nat.leb n 31).

Module FloatParse.

Definition digit (c : ascii) : option Z :=
  let n := nat_of_ascii c in
  if Nat.leb 48 n && Nat.leb n 57 then Some (Z.of_nat (n - 48)) else None.

(** Reads a run of digits: the accumulated value, how many digits were
    read, and the rest of the text. *)
Fixpoint digits (s : string) (acc : Z) (n : nat) : Z * nat * string :=
  match s with
  | EmptyString => (acc, n, s)
  | String c s' =>
      match digit c with
      | Some d => digits s' (10 * acc + d) (S n)
      | None => (acc, n, s)
      end
  end.

Definition sign (s : string) : bool * string :=
  match s with
  | String "-" s' => (true, s')
  | String "+" s' => (false, s')
  | _ => (false, s)
  end.

(** The value [(-1)^neg * m * 10^e], rounded to the nearest binary64. *)
Definition of_decimal (neg : bool) (m e : Z) : Float64.float :=
  match m with
  | Z0 => S754_zero neg
  | Zpos p =>
      if (0 <=? e)%Z then
        binary_normalize Float64.prec Float64.emax
          (if neg then Z.neg p * 10 ^ e else Z.pos p * 10 ^ e) 0 neg
      else
        match (10 ^ (- e))%Z with
        | Zpos q => Float64.div (S754_finite neg p 0) (S754_finite false q 0)
        | _ => S754_nan
        end
  | Zneg _ => S754_nan
  end.

(** Decimal literals: an optional sign, digits with an optional
    fraction, and an optional exponent. *)
Definition parse (s : string) : option Float64.float :=
  let (neg, s1) := sign s in
  let '(ip, ni, s2) := digits s1 0 0 in
  let '(m, nf, s3) :=
    match s2 with
    | String "." s2' => digits s2' ip 0
    | _ => (ip, 0%nat, s2)
    end in
  if Nat.eqb (ni + nf) 0 then None
  else
    match s3 with
    | EmptyString => Some (of_decimal neg m (- Z.of_nat nf))
    | String c s4 =>
        if Ascii.eqb c "e"%char || Ascii.eqb c "E"%char then
          let (eneg, s5) := sign s4 in
          let '(ev, ne, s6) := digits s5 0 0 in
          match ne, s6 with
          | S _, EmptyString =>
              Some (of_decimal neg m ((if eneg then - ev else ev) - Z.of_nat nf))
          | _, _ => None
          end
        else None
    end.

End FloatParse.

(** [float(v)]: the floats are kept, integers are rounded, decimal text
    is parsed (a token holding a number is decimal text).  Text outside
    decimal notation (inf, nan, digit separators) is taken as
    unparsable. *)
Definition py_float (v : PyVal) : exn + Float64.float :=
  match v with
  | PNum x => inr x
  | PBool _ | PInt _ =>
      match as_num v with
      | Some n =>
          match to_float n with
          | Some x => inr x
          | None => inl (PyExc "OverflowError" "")
          end
      | None => inl TypeError
      end
  | PStr s | PToken _ s =>
      match FloatParse.parse (strip is_space s) with
      | Some x => inr x
      | None => inl (ValueError "could not convert string to float")
      end
  | _ => inl TypeError
  end.


(* ================================================================== *)
(** ** The transformer (dsl/parser.py): helpers *)

Definition ebind {A B} (r : exn + A) (k : A -> exn + B) : exn + B :=
  match r with inl e => inl e | inr a => k a end.
Notation "x <-? r ;; k" := (ebind r (fun x => k))
  (at level 61, r at next level, right associativity) : monad_scope.

(** The first two items of an iterable of exactly two items, as the
    target list [k, v] of an unpacking assignment requires. *)
Definition unpack2 (v : PyVal) : exn + PyVal * PyVal :=
  match py_iter v with
  | Some [k; x] => inr (k, x)
  | Some _ => inl (ValueError "unpack")
  | None => inl TypeError
  end.

(** A dictionary key: the tables of this program are keyed by strings.
    An unhashable key is a TypeError; a hashable key that is not a string
    (a number where an id is expected) is outside the model and reported
    as such. *)
Definition as_key (k : PyVal) : exn + string :=
  match as_str k with
  | Some s => inr s
  | None =>
      if hashable k then inl (PyExc "Unmodelled" "key that is not a str")
      else inl TypeError
  end.

(** Convert list of ('key', value) pairs to dict; later keys override
    earlier ones. *)
Fixpoint _pairs_to_dict_from (out : dict PyVal) (items : list PyVal)
  : exn + dict PyVal :=
  match items with
  | [] => inr out
  | it :: rest =>
      kv <-? unpack2 it ;;
      k <-? as_key (fst kv) ;;
      _pairs_to_dict_from (dict_set k (snd kv) out) rest
  end.
Definition _pairs_to_dict (items : list PyVal) : exn + dict PyVal :=
  _pairs_to_dict_from [] items.

(** Merge optional extra k/vs into the main set (main keys win). *)
Definition _merge_front (kvs_main : dict PyVal) (kvs_extra : option (dict PyVal))
  : dict PyVal :=
  match kvs_extra with
  | None => kvs_main
  | Some extra =>
      if negb (truthy (PDict extra)) then kvs_main
      else
        let merged := extra in               (* dict(kvs_extra) *)
        dict_update merged kvs_main
  end.

(** [c[i]] on a list *)
Definition index (c : list PyVal) (i : nat) : exn + PyVal :=
  match nth_error c i with
  | Some v => inr v
  | None => inl IndexError
  end.

(** [{k0: c[0], k1: c[1], ...}] for the given keys *)
Fixpoint kvs_indexed_from (i : nat) (keys : list string) (c : list PyVal)
                          (out : dict PyVal) : exn + dict PyVal :=
  match keys with
  | [] => inr out
  | k :: keys' =>
      v <-? index c i ;;
      kvs_indexed_from (S i) keys' c (dict_set k v out)
  end.
Definition kvs_indexed (keys : list string) (c : list PyVal) : exn + dict PyVal :=
  kvs_indexed_from 0 keys c [].

(** [c[idx] if idx < len(c) and isinstance(c[idx], dict) else None] *)
Definition extra_at (c : list PyVal) (idx : nat) : option (dict PyVal) :=
  match nth_error c idx with
  | Some (PDict d) => Some d
  | _ => None
  end.

Definition loc_of (meta : Z * Z) : PyVal :=
  PTuple [PInt (fst meta); PInt (snd meta)].

(** [("OBJ", typ, kvs, (meta.line, meta.column))] *)
Definition OBJ (typ : string) (kvs : dict PyVal) (meta : Z * Z) : PyVal :=
  PTuple [PStr "OBJ"; PStr typ; PDict kvs; loc_of meta].

(* ================================================================== *)
(** ** The transformer: parameter rules of the ADD_* statements *)

(** The methods of class [ToIR].  A rule method declared with
    [*_children] is called by lark (under [v_args(meta=True)]) with the
    node's position and ONE positional argument, the list of the node's
    transformed children; the argument tuple is passed here as a list. *)
Module ToIR.

(** The flattening loop at the head of each [*_params] method. *)
Definition flatten (cs : list PyVal) : list PyVal :=
  flat_map (fun c => match c with PList l => l | _ => [c] end) cs.

(** A loop that threads an accumulator and may raise. *)
Fixpoint fold_err {S A} (f : S -> A -> exn + S) (l : list A) (st : S) : exn + S :=
  match l with
  | [] => inr st
  | x :: l' => st' <-? f st x ;; fold_err f l' st'
  end.

Definition bus_params_step (st : PyVal * PyVal) (item : PyVal)
  : exn + PyVal * PyVal :=
  let (id_value, kv_value) := st in
  if is_str item && negb (in_strs item ["id="; ","; "kv="; " "]) then
    inr (item, kv_value)
  else if is_number item then inr (id_value, item)
  else
    match item with
    | PToken ty v =>
        if String.eqb ty "ID" then inr (PStr v, kv_value)
        else if String.eqb ty "NUMBER" then
          x <-? py_float (PStr v) ;; inr (id_value, PNum x)
        else inr st
    | _ => inr st
    end.

Definition bus_params (meta : Z * Z) (_children : list PyVal) : exn + PyVal :=
  let all_items := flatten _children in
  st <-? fold_err bus_params_step all_items (PNone, PNone) ;;
  inr (PList [fst st; snd st]).

(** The scanning loop shared by the other [*_params] methods: [literals]
    are the fragments filtered out, [tok_types] the token types whose
    value is taken as it is; [with_string] tells whether STRING tokens are
    taken with their quotes stripped. *)
Definition scan_step (literals tok_types : list string) (with_string : bool)
                     (found_values : list PyVal) (item : PyVal)
  : exn + list PyVal :=
  if is_str item && negb (in_strs item literals) then
    inr (found_values ++ [item])
  else if is_number item then inr (found_values ++ [item])
  else
    match item with
    | PToken ty v =>
        if existsb (String.eqb ty) tok_types then inr (found_values ++ [PStr v])
        else if with_string && String.eqb ty "STRING" then
          inr (found_values ++ [PStr (strip is_quote v)])
        else if String.eqb ty "NUM" then
          x <-? py_float (PStr v) ;; inr (found_values ++ [PNum x])
        else inr found_values
    | _ => inr found_values
    end.

Definition scan (literals tok_types : list string) (with_string : bool)
                (_children : list PyVal) : exn + list PyVal :=
  fold_err (scan_step literals tok_types with_string) (flatten _children) [].

Definition bay_params (meta : Z * Z) (_children : list PyVal) : exn + PyVal :=
  found_values <-? scan ["id="; ","; "kind="; "kv="; "bus="; " "]
                        ["ID"; "BAYKIND"] false _children ;;
  if Nat.leb 4 (List.length found_values)
  then inr (PList (firstn 4 found_values))
  else inr (PList [PNone; PNone; PNone; PNone]).

(** [return found_values[0..n-1] if len(found_values) >= n else found_values] *)
Definition first_or_all (n : nat) (found_values : list PyVal) : PyVal :=
  if Nat.leb n (List.length found_values)
  then PList (firstn n found_values)
  else PList found_values.

Definition coupler_params (meta : Z * Z) (_children : list PyVal) : exn + PyVal :=
  found_values <-? scan ["id="; ","; "kv="; "from_bus="; "to_bus="; " "]
                        ["ID"] false _children ;;
  inr (first_or_all 4 found_values).

Definition breaker_params (meta : Z * Z) (_children : list PyVal) : exn + PyVal :=
  found_values <-? scan ["id="; ","; "kv="; "interrupting_kA="; "type=";
                         "continuous_A="; " "]
                        ["ID"; "BREAKER_TYPE"] false _children ;;
  inr (first_or_all 5 found_values).

Definition disconnector_params (meta : Z * Z) (_children : list PyVal)
  : exn + PyVal :=
  found_values <-? scan ["id="; ","; "kv="; "type="; "continuous_A="; " "]
                        ["ID"; "DISCONNECTOR_TYPE"] false _children ;;
  inr (first_or_all 4 found_values).

Definition transformer_params (meta : Z * Z) (_children : list PyVal)
  : exn + PyVal :=
  found_values <-? scan ["id="; ","; "type="; "rated_MVA="; "vector_group=";
                         "percentZ="; " "]
                        ["ID"; "TRANSFORMER_TYPE"] true _children ;;
  inr (first_or_all 5 found_values).

Definition line_params (meta : Z * Z) (_children : list PyVal) : exn + PyVal :=
  found_values <-? scan ["id="; ","; "kv="; "type="; "length_km=";
                         "thermal_A="; " "]
                        ["ID"; "LINE_TYPE"] false _children ;;
  inr (first_or_all 5 found_values).

(* ================================================================== *)
(** ** The transformer: ADD_* statements *)

(** [isinstance(subchild, list) and len(subchild) == n
     and not isinstance(subchild[0], Token)] *)
Definition looks_like_params (n : nat) (subchild : PyVal) : bool :=
  match subchild with
  | PList sl =>
      Nat.eqb (List.length sl) n &&
      match sl with
      | x :: _ => negb (is_token x)
      | [] => false
      end
  | _ => false
  end.

(** The search loop at the head of [add_bus] and its siblings: the
    parameter list found last, and the dict seen last. *)
Fixpoint find_params (n : nat) (_children : list PyVal)
                     (result : option PyVal) (extra : option (dict PyVal))
  : option PyVal * option (dict PyVal) :=
  match _children with
  | [] => (result, extra)
  | child :: rest =>
      match child with
      | PList l =>
          match find (looks_like_params n) l with
          | Some sub => find_params n rest (Some sub) extra
          | None => find_params n rest result extra
          end
      | PDict d => find_params n rest result (Some d)
      | _ => find_params n rest result extra
      end
  end.

(** The common body: find the parameters, build the attributes under
    the given keys, merge the extension block, emit the object.  The
    message of the ValueError names the method, without the children. *)
Definition add_with_params (name typ : string) (keys : list string)
                           (meta : Z * Z) (_children : list PyVal)
  : exn + PyVal :=
  match find_params (List.length keys) _children None None with
  | (Some (PList vals), extra) =>
      let kvs := fold_left (fun acc kv => dict_set (fst kv) (snd kv) acc)
                           (zip keys vals) [] in
      let kvs := match extra with
                 | Some e => if truthy (PDict e) then _merge_front kvs (Some e)
                             else kvs
                 | None => kvs
                 end in
      inr (OBJ typ kvs meta)
  | _ => inl (ValueError (name ++ ": could not find params result"))
  end.

Definition add_bus := add_with_params "add_bus" "BUS" ["id"; "kv"].
Definition add_bay := add_with_params "add_bay" "BAY" ["id"; "kind"; "kv"; "bus"].
Definition add_coupler :=
  add_with_params "add_coupler" "COUPLER" ["id"; "kv"; "from_bus"; "to_bus"].
Definition add_breaker :=
  add_with_params "add_breaker" "BREAKER"
    ["id"; "kv"; "interrupting_kA"; "type"; "continuous_A"].
Definition add_disconnector :=
  add_with_params "add_disconnector" "DISCONNECTOR"
    ["id"; "kv"; "type"; "continuous_A"].
Definition add_transformer :=
  add_with_params "add_transformer" "TRANSFORMER"
    ["id"; "type"; "rated_MVA"; "vector_group"; "percentZ"].
Definition add_line :=
  add_with_params "add_line" "LINE"
    ["id"; "kv"; "type"; "length_km"; "thermal_A"].

(** The statements whose children are read by position.  [opt] says
    how the one optional slot after the mandatory ones is recognised:
    a key for it and a test on the child. *)
Definition add_indexed (typ : string) (keys : list string)
                       (opt : option (string * (PyVal -> bool)))
                       (meta : Z * Z) (_c : list PyVal) : exn + PyVal :=
  let c := _c in
  kvs <-? kvs_indexed keys c ;;
  let idx := List.length keys in
  let '(kvs, idx) :=
    match opt with
    | Some (k, test) =>
        match nth_error c idx with
        | Some v => if test v then (dict_set k v kvs, S idx) else (kvs, idx)
        | None => (kvs, idx)
        end
    | None => (kvs, idx)
    end in
  let extra := extra_at c idx in
  inr (OBJ typ (_merge_front kvs extra) meta).

Definition not_dict (v : PyVal) : bool := negb (is_dict v).
Definition dict_with (k : string) (v : PyVal) : bool :=
  match v with PDict d => dict_mem k d | _ => false end.

Definition add_earthing_switch :=
  add_indexed "EARTHING_SWITCH" ["id"; "kv"; "make_kA"] None.
Definition add_ct :=
  add_indexed "CT" ["id"; "kv"; "ratio"; "class"] (Some ("burden_VA", not_dict)).
Definition add_vt :=
  add_indexed "VT" ["id"; "kv"; "type"; "ratio"; "class"] None.
Definition add_relay_group :=
  add_indexed "RELAY_GROUP" ["id"; "functions"; "dc_supply"]
    (Some ("trip_objects", not_dict)).
Definition add_cable :=
  add_indexed "CABLE" ["id"; "kv"; "length_km"; "thermal_A"; "insulation"]
    (Some ("seq_params", is_dict)).
Definition add_shunt_cap_bank :=
  add_indexed "SHUNT_CAP_BANK" ["id"; "kv"; "mvar_total"; "steps"; "connection"]
    (Some ("tuning", dict_with "tuned_Hz")).
Definition add_shunt_reactor :=
  add_indexed "SHUNT_REACTOR" ["id"; "kv"; "mvar"; "switchable"] None.
Definition add_series_cap :=
  add_indexed "SERIES_CAP" ["id"; "kv"; "compensation_pct"; "protection"] None.
Definition add_svc :=
  add_indexed "SVC" ["id"; "kv"; "mvar_range"; "control_mode"]
    (Some ("response_ms", not_dict)).
Definition add_statcom :=
  add_indexed "STATCOM" ["id"; "kv"; "mvar_range"; "control_mode"]
    (Some ("response_ms", not_dict)).
Definition add_surge_arrester :=
  add_indexed "SURGE_ARRESTER" ["id"; "kv"; "mcov_kV"; "class"] None.
Definition add_line_trap :=
  add_indexed "LINE_TRAP" ["id"; "kv"; "carrier_kHz"] None.
Definition add_station_service_transformer :=
  add_indexed "STATION_SERVICE_TRANSFORMER"
    ["id"; "primary_kv"; "secondary_kV"; "kVA"] None.
Definition add_dc_system :=
  add_indexed "DC_SYSTEM" ["id"; "nominal_V"; "capacity_Ah"; "redundancy"] None.

(* ------------------------------------------------------------------ *)
(** *** Atoms (token callbacks) *)

Definition tok_value (tok : PyVal) : string :=
  match as_str tok with Some s => s | None => "" end.

Definition ID (tok : PyVal) : exn + PyVal := inr (PStr (tok_value tok)).
Definition STRING (tok : PyVal) : exn + PyVal :=
  inr (PStr (slice_1_m1 (tok_value tok))).
Definition NUM (tok : PyVal) : exn + PyVal :=
  x <-? py_float tok ;; inr (PNum x).
Definition KEY (tok : PyVal) : exn + PyVal := inr (PStr (tok_value tok)).
Definition BOOL (tok : PyVal) : exn + PyVal :=
  inr (PBool (str_eq tok "true")).
Definition OPEN_END (meta : PyVal) : exn + PyVal :=
  inr (PDict [("OPEN_END", PBool true)]).

(* ------------------------------------------------------------------ *)
(** *** Values, lists and composites *)

Definition value (meta : Z * Z) (v : list PyVal) : exn + PyVal := index v 0.

(** The three methods declared with [v_args(inline=True)] are called
    with the children spread as positional arguments, the first of which
    lands in the parameter named [meta]. *)
Definition key (children : list PyVal) : exn + PyVal :=
  match children with
  | [meta; k] => inr k
  | _ => inl TypeError
  end.

Definition opt_kvs (children : list PyVal) : exn + PyVal :=
  match children with
  | meta :: pairs => d <-? _pairs_to_dict pairs ;; inr (PDict d)
  | [] => inl TypeError
  end.

Definition pair (children : list PyVal) : exn + PyVal :=
  match children with
  | [meta; k; v] => inr (PTuple [k; v])
  | _ => inl TypeError
  end.

Definition list_id (meta : Z * Z) (items : list PyVal) : exn + PyVal :=
  inr (PList items).
Definition list_rel (meta : Z * Z) (items : list PyVal) : exn + PyVal :=
  inr (PList items).

Fixpoint floats_of (items : list PyVal) : exn + list PyVal :=
  match items with
  | [] => inr []
  | x :: rest =>
      f <-? py_float x ;; fs <-? floats_of rest ;; inr (PNum f :: fs)
  end.
Definition list_num (meta : Z * Z) (items : list PyVal) : exn + PyVal :=
  fs <-? floats_of items ;; inr (PList fs).

Definition seq_params (meta : Z * Z) (items : list PyVal) : exn + PyVal :=
  let vals := items in
  let keys := ["R1_ohm_per_km"; "X1_ohm_per_km"; "B1_uS_per_km";
               "R0_ohm_per_km"; "X0_ohm_per_km"; "B0_uS_per_km"] in
  out <-? fold_err (fun out iv =>
                      if is_none (snd iv) then inr out
                      else match nth_error keys (fst iv) with
                           | Some k => inr (dict_set k (snd iv) out)
                           | None => inl IndexError
                           end)
                   (enumerate vals) [] ;;
  inr (PDict out).

Definition tap_obj (meta : Z * Z) (items : list PyVal) : exn + PyVal :=
  let d := fold_left (fun d kv => dict_set (fst kv) (snd kv) d)
             (zip ["side"; "range_pct"; "steps"; "regulation_mode"] items) [] in
  inr (PDict d).

(** [tuning(self, meta, tuned_hz, q_factor)] and
    [range(self, meta, a, b)] take two arguments after [meta] and are
    called with one. *)
Definition tuning (meta : Z * Z) (children : list PyVal) : exn + PyVal :=
  inl TypeError.
Definition range (meta : Z * Z) (children : list PyVal) : exn + PyVal :=
  inl TypeError.

Definition routing (meta : Z * Z) (items : list PyVal) : exn + PyVal :=
  let keys := ["pref"; "avoid_crossing"; "bus_spacing"; "bay_spacing"] in
  let out := fold_left (fun out kv =>
                          if is_none (snd kv) then out
                          else dict_set (fst kv) (snd kv) out)
                       (zip keys items) [] in
  inr (PDict out).

(** Series items *)
Definition stub_obj (meta : Z * Z) (s : list PyVal) : exn + PyVal :=
  inr (PDict [("STUB", PList s)]).

(* ------------------------------------------------------------------ *)
(** *** Statements that write the IR *)

Definition is_tuple4 (v : PyVal) : bool :=
  match v with
  | PTuple l => Nat.eqb (List.length l) 4
  | _ => false
  end.

(** The loop over the subchildren of one list child: a tree with
    children hands over the first 4-tuple among them and the loop goes on;
    a 4-tuple ends the loop. *)
Fixpoint scan_subchildren (subs : list PyVal) (item : option PyVal)
  : option PyVal :=
  match subs with
  | [] => item
  | sub :: rest =>
      match sub with
      | PTree _ (c :: cs) _ =>
          match find is_tuple4 (c :: cs) with
          | Some t => scan_subchildren rest (Some t)
          | None => scan_subchildren rest item
          end
      | _ =>
          if is_tuple4 sub then Some sub
          else scan_subchildren rest item
      end
  end.

Fixpoint find_item (children : list PyVal) : option PyVal :=
  match children with
  | [] => None
  | child :: rest =>
      match child with
      | PList subs =>
          match scan_subchildren subs None with
          | Some it => Some it
          | None => find_item rest
          end
      | _ => if is_tuple4 child then Some child else find_item rest
      end
  end.

(** [v[0]]: the first item of a list or tuple, the first character of a
    string; an empty sequence is an IndexError, a dict (keyed by strings)
    a KeyError, anything else cannot be subscripted. *)
Definition subscript0 (v : PyVal) : exn + PyVal :=
  match v with
  | PList (x :: _) | PTuple (x :: _) => inr x
  | PList [] | PTuple [] => inl IndexError
  | PStr s | PToken _ s =>
      match s with
      | String c _ => inr (PStr (String c EmptyString))
      | EmptyString => inl IndexError
      end
  | PDict _ => inl (PyExc "KeyError" "0")
  | _ => inl TypeError
  end.

(** The two errors of [add_stmt].  Their messages end in
    "at line {loc[0]}": [loc[0]] is evaluated (and may raise) before the
    ValueError is built; the text of the line number is not kept in the
    message. *)
Definition Missing_id (typ : string) : exn :=
  ValueError ("Missing id in " ++ typ).
Definition Duplicate_id (oid : string) : exn :=
  ValueError ("Duplicate id '" ++ oid ++ "'").

Definition set_objects (f : dict ObjectIR -> dict ObjectIR) (ir : IR) : IR :=
  mkIR (f (objects ir)) (series ir) (pages ir) (style ir) (meta ir).
Definition set_series (f : list PyVal -> list PyVal) (ir : IR) : IR :=
  mkIR (objects ir) (f (series ir)) (pages ir) (style ir) (meta ir).
Definition set_pages (f : dict PageIR -> dict PageIR) (ir : IR) : IR :=
  mkIR (objects ir) (series ir) (f (pages ir)) (style ir) (meta ir).

(** add_stmt receives ("OBJ", type, kvs, loc) from add_* and inserts
    into the table. *)
Definition add_stmt (meta : Z * Z) (children : list PyVal) : M PyVal :=
  match find_item children with
  | Some (PTuple [kind; typ; kvs; loc]) =>
      match kvs, as_str typ with
      | PDict kvs, Some typ =>
          let oid := attr_get kvs "id" in
          if negb (truthy oid) then
            lift (subscript0 loc) ;;; raise (Missing_id typ)
          else
            oid <- lift (as_key oid) ;;
            objs <- gets objects ;;
            if dict_mem oid objs then
              lift (subscript0 loc) ;;; raise (Duplicate_id oid)
            else
              modify (set_objects (dict_set oid (mkObjectIR oid typ kvs loc))) ;;;
              ret PNone
      | PDict _, None =>
          (* every ADD_* rule passes a str; anything else is outside the model *)
          raise (PyExc "Unmodelled" "type that is not a str")
      | _, _ => raise (PyExc "AttributeError" "get")
      end
  | _ => raise (ValueError "add_stmt expected 4-tuple")
  end.

(** CONNECT: the last list among the arguments is recorded, paired with
    the statement's position. *)
Definition connect_stmt (meta : Z * Z) (_children : list PyVal) : M PyVal :=
  let series_list :=
    fold_left (fun acc child => if is_list child then child else acc)
              _children (PList []) in
  modify (set_series (fun l => l ++ [PTuple [series_list; loc_of meta]])) ;;;
  ret PNone.

(** PAGE: stored by id. *)
Definition page_stmt (meta : Z * Z) (_c : list PyVal) : M PyVal :=
  let c := _c in
  kvs <- lift (kvs_indexed ["id"; "title"; "voltage_scope"; "buses"; "bays"] c) ;;
  let idx := 5%nat in
  let '(kvs, idx) :=
    match nth_error c idx with
    | Some v =>
        if dict_with "pref" v || dict_with "bus_spacing" v
        then (dict_set "routing" v kvs, S idx)
        else (kvs, idx)
    | None => (kvs, idx)
    end in
  let kvs := match extra_at c idx with
             | Some e => if truthy (PDict e) then dict_update kvs e else kvs
             | None => kvs
             end in
  pid <- lift (match dict_get "id" kvs with
               | Some v => as_key v
               | None => inl (PyExc "KeyError" "id")
               end) ;;
  modify (set_pages (dict_set pid (mkPageIR pid kvs (loc_of meta)))) ;;;
  ret PNone.

Definition style_stmt (meta : Z * Z) (c : list PyVal) : exn + PyVal := inr PNone.
Definition label_stmt (meta : Z * Z) (c : list PyVal) : exn + PyVal := inr PNone.
Definition layout_stmt (meta : Z * Z) (c : list PyVal) : exn + PyVal := inr PNone.
Definition validate_stmt (meta : Z * Z) (c : list PyVal) : exn + PyVal := inr PNone.
Definition emit_stmt (meta : Z * Z) (c : list PyVal) : exn + PyVal := inr PNone.

(* ------------------------------------------------------------------ *)
(** *** The tree walk of lark's [Transformer] *)

(** The method called for a token of the given type, if any. *)
Definition token_callback (ty : string) : option (PyVal -> exn + PyVal) :=
  if String.eqb ty "ID" then Some ID
  else if String.eqb ty "STRING" then Some STRING
  else if String.eqb ty "NUM" then Some NUM
  else if String.eqb ty "KEY" then Some KEY
  else if String.eqb ty "BOOL" then Some BOOL
  else if String.eqb ty "OPEN_END" then Some OPEN_END
  else None.

(** Calling conventions: [star f] passes the children as the single
    element of the argument tuple; [plain f] passes them as the one
    parameter after [meta]; [inline f] spreads them. *)
Definition star (f : Z * Z -> list PyVal -> exn + PyVal)
  : Z * Z -> list PyVal -> M PyVal :=
  fun m ch => lift (f m [PList ch]).
Definition starM (f : Z * Z -> list PyVal -> M PyVal)
  : Z * Z -> list PyVal -> M PyVal :=
  fun m ch => f m [PList ch].
Definition plain (f : Z * Z -> list PyVal -> exn + PyVal)
  : Z * Z -> list PyVal -> M PyVal :=
  fun m ch => lift (f m ch).
Definition inline (f : list PyVal -> exn + PyVal)
  : Z * Z -> list PyVal -> M PyVal :=
  fun _ ch => lift (f ch).

Definition rule_table : list (string * (Z * Z -> list PyVal -> M PyVal)) :=
  [ ("value", plain value); ("key", inline key); ("opt_kvs", inline opt_kvs);
    ("pair", inline pair);
    ("list_id", plain list_id); ("list_rel", plain list_rel);
    ("list_num", plain list_num);
    ("seq_params", star seq_params); ("tap_obj", star tap_obj);
    ("tuning", plain tuning); ("routing", star routing); ("range", plain range);
    ("stub_obj", plain stub_obj);
    ("bus_params", star bus_params); ("bay_params", star bay_params);
    ("coupler_params", star coupler_params);
    ("breaker_params", star breaker_params);
    ("disconnector_params", star disconnector_params);
    ("transformer_params", star transformer_params);
    ("line_params", star line_params);
    ("add_bus", star add_bus); ("add_bay", star add_bay);
    ("add_coupler", star add_coupler); ("add_breaker", star add_breaker);
    ("add_disconnector", star add_disconnector);
    ("add_earthing_switch", star add_earthing_switch);
    ("add_ct", star add_ct); ("add_vt", star add_vt);
    ("add_relay_group", star add_relay_group);
    ("add_transformer", star add_transformer); ("add_line", star add_line);
    ("add_cable", star add_cable);
    ("add_shunt_cap_bank", star add_shunt_cap_bank);
    ("add_shunt_reactor", star add_shunt_reactor);
    ("add_series_cap", star add_series_cap);
    ("add_svc", star add_svc); ("add_statcom", star add_statcom);
    ("add_surge_arrester", star add_surge_arrester);
    ("add_line_trap", star add_line_trap);
    ("add_station_service_transformer", star add_station_service_transformer);
    ("add_dc_system", star add_dc_system);
    ("add_stmt", starM add_stmt); ("connect_stmt", starM connect_stmt);
    ("page_stmt", starM page_stmt);
    ("style_stmt", star style_stmt); ("label_stmt", star label_stmt);
    ("layout_stmt", star layout_stmt); ("validate_stmt", star validate_stmt);
    ("emit_stmt", star emit_stmt) ].

Definition rule_callback (data : string)
  : option (Z * Z -> list PyVal -> M PyVal) :=
  dict_get data rule_table.

(** An exception escaping a callback is wrapped in a [VisitError]. *)
Definition visit {A} (rule : string) (m : M A) : M A :=
  fun s =>
    match m s with
    | (inl e, s') => (inl (VisitError rule e), s')
    | r => r
    end.

(** Children first, left to right; then the callback of the node, or
    a tree with the transformed children when the rule has none. *)
Fixpoint transform (t : Tree) : M PyVal :=
  match t with
  | Tok ty v =>
      match token_callback ty with
      | Some f => visit ty (lift (f (PToken ty v)))
      | None => ret (PToken ty v)
      end
  | Node data children meta =>
      children' <-
        (fix transform_children (l : list Tree) : M (list PyVal) :=
           match l with
           | [] => ret []
           | c :: l' =>
               v <- transform c ;;
               vs <- transform_children l' ;;
               ret (v :: vs)
           end) children ;;
      match rule_callback data with
      | Some f => visit data (f meta children')
      | None => ret (PTree data children' meta)
      end
  end.

End ToIR.

(* ================================================================== *)
(** ** Public API: [parse] *)

(** [tx = ToIR(); tx.transform(tree); return tx.ir]: the transformer
    instance starts from a fresh [IR()]. *)
Definition run_transformer (tree : Tree) : exn + IR :=
  match ToIR.transform tree IR_new with
  | (inl e, _) => inl e
  | (inr _, ir) => inr ir
  end.

Section Parse.
(** The compiled grammar ([_parser.parse]): text in, syntax tree out,
    or a syntax error carrying the offending line and column.  It is
    built once when the module is loaded and never changes. *)
Variable _parser_parse : string -> (option Z * option Z) + Tree.

(** Parse DSL text into IR. Raises ParseError on syntax problems. *)
Definition parse (text : string) : exn + IR :=
  match _parser_parse text with
  | inl (line, column) => inl (ParseError line column)
  | inr tree => run_transformer tree
  end.
End Parse.

(* ================================================================== *)
(** ** Definitions used in the statements *)

(** The outcome of [validate], rule after rule. *)
Definition validate_outcome (ir : IR) : exn + unit :=
  if negb (Nat.eqb (List.length (nodup string_dec (dict_keys (objects ir))))
                   (dict_len (objects ir)))
  then inl E_ID_DUP
  else
    match first_error (check_chain (objects ir)) (series ir) with
    | inl e => inl e
    | inr _ => check_breakers (objects ir) (series ir)
    end.

(** The exceptions the rules of one chain can raise. *)
Definition chain_error (e : exn) : Prop :=
  e = E_CONNECT_EMPTY \/ e = E_CONNECT_ENDPOINT \/ e = E_VOLT_MISMATCH \/
  e = TypeError \/ e = PyExc "OverflowError" "".

(** A Terminal (OPEN_END or STUB, a dict) sits in the chain at an index
    other than the first and the last. *)
Definition interior_terminal (chain : PyVal) : Prop :=
  exists items i v,
    py_iter chain = Some items /\ nth_error items i = Some v /\
    is_dict v = true /\ i <> 0%nat /\ i <> (List.length items - 1)%nat.

(** Every rule run on one chain passes. *)
Definition chain_passes (objs : dict ObjectIR) (chain : PyVal) : Prop :=
  check_chain objs chain = inr tt.

Definition open_end : PyVal := PDict [("OPEN_END", PBool true)].

(** An empty chain followed by a chain with OPEN_END in the middle. *)
Definition ir_empty_then_interior : IR :=
  mkIR [] [PList []; PList [PStr "brk1"; open_end; PStr "bus1"]] [] [] [].

(** A chain with OPEN_END in the middle. *)
Definition ir_interior : IR :=
  mkIR [] [PList [PStr "brk1"; open_end; PStr "bus1"]] [] [] [].

(** The comparison of the voltage rule, [abs(kva-kvb) > 0.15*max(kva, kvb)],
    on two floats, each operation rounded as binary64 arithmetic does. *)
Definition exceeds_tolerance (kva kvb : Float64.float) : bool :=
  Float64.ltb
    (Float64.mul Float64.c0_15 (if Float64.ltb kva kvb then kvb else kva))
    (Float64.abs (Float64.sub kva kvb)).

Definition is_bus_or_transformer (o : ObjectIR) : Prop :=
  obj_type o = "BUS" \/ obj_type o = "TRANSFORMER".

(** The pairs the voltage rule compares: [a] and [b] are not Terminals,
    both name an object of the table, neither object is a BUS or a
    TRANSFORMER, and both carry a numeric kv. *)
Definition compared_pair (objs : dict ObjectIR) (a b : PyVal)
                         (kva kvb : Float64.float) : Prop :=
  is_dict a = false /\ is_dict b = false /\
  exists oa ob,
    objects_get objs a = inr (Some oa) /\ objects_get objs b = inr (Some ob) /\
    ~ is_bus_or_transformer oa /\ ~ is_bus_or_transformer ob /\
    attr_get (obj_attrs oa) "kv" = PNum kva /\
    attr_get (obj_attrs ob) "kv" = PNum kvb.

(** The adjacent pairs of a chain, [zip(chain, chain[1:])]. *)
Definition adjacent_pairs (chain : PyVal) : option (list (PyVal * PyVal)) :=
  match py_iter chain, py_tail chain with
  | Some items, Some rest => Some (zip items rest)
  | _, _ => None
  end.

(** Every kv attribute of the table is a float, or absent. *)
Definition kv_floats (objs : dict ObjectIR) : Prop :=
  Forall (fun kv => attr_get (obj_attrs (snd kv)) "kv" = PNone \/
                    exists x, attr_get (obj_attrs (snd kv)) "kv" = PNum x) objs.

(** The voltage rule as the specification words it: for each compared pair of
    each chain, [validate] raises E.VOLT.MISMATCH exactly when the pair
    exceeds the tolerance. *)
Definition volt_rule_per_pair (ir : IR) : Prop :=
  forall chain pairs a b kva kvb,
    In chain (series ir) -> adjacent_pairs chain = Some pairs ->
    In (a, b) pairs -> compared_pair (objects ir) a b kva kvb ->
    (validate_result ir = inl E_VOLT_MISMATCH <->
     exceeds_tolerance kva kvb = true).

Definition line_obj (oid : string) (kv : Z) : string * ObjectIR :=
  (oid, mkObjectIR oid "LINE"
          [("id", PStr oid); ("kv", PNum (Float64.of_Z kv))] PNone).

(** Two lines at 138 kV and 230 kV joined by the second chain; the
    first chain is empty. *)
Definition ir_empty_then_mismatch : IR :=
  mkIR [line_obj "lineA" 138; line_obj "lineB" 230]
       [PList []; PList [PStr "lineA"; PStr "lineB"]] [] [] [].

(** Two lines at 138 kV and 230 kV joined by one chain. *)
Definition ir_mismatch : IR :=
  mkIR [line_obj "lineA" 138; line_obj "lineB" 230]
       [PList [PStr "lineA"; PStr "lineB"]] [] [] [].

(** The first rule to fail on the chain is the voltage rule: the chain
    is not empty, has no interior Terminal, and the first adjacent pair
    that does not pass is a compared pair exceeding the tolerance. *)
Definition chain_mismatch (objs : dict ObjectIR) (chain : PyVal) : Prop :=
  truthy chain = true /\ ~ interior_terminal chain /\
  exists pairs ppre a b ppost kva kvb,
    adjacent_pairs chain = Some pairs /\ pairs = ppre ++ (a, b) :: ppost /\
    Forall (fun p => check_pair objs p = inr tt) ppre /\
    compared_pair objs a b kva kvb /\ exceeds_tolerance kva kvb = true.

(** The identifier [oid] is a plain-identifier (string) element of some
    chain. *)
Definition in_some_chain (chains : list PyVal) (oid : string) : Prop :=
  exists chain items v,
    In chain chains /\ py_iter chain = Some items /\
    In v items /\ as_str v = Some oid.

(** Rules 1 and 2 pass: the id test finds no duplicate and every chain
    passes its rules. *)
Definition earlier_rules_pass (ir : IR) : Prop :=
  List.length (nodup string_dec (dict_keys (objects ir))) = dict_len (objects ir)
  /\ Forall (chain_passes (objects ir)) (series ir).

Definition breaker_obj (oid : string) : string * ObjectIR :=
  (oid, mkObjectIR oid "BREAKER"
          [("id", PStr oid); ("kv", PNum (Float64.of_Z 138))] PNone).

(** A breaker that no chain mentions. *)
Definition ir_unused_breaker : IR :=
  mkIR [line_obj "lineA" 138; breaker_obj "brk1"]
       [PList [PStr "lineA"]] [] [] [].

(** [list(self._transform_children(tree.children))]: the children of a
    node, transformed from left to right. *)
Fixpoint transform_children (l : list Tree) : M (list PyVal) :=
  match l with
  | [] => ret []
  | c :: l' =>
      v <- ToIR.transform c ;;
      vs <- transform_children l' ;;
      ret (v :: vs)
  end.

(** The three ways in which a statement method changes the IR:
    [add_stmt] registers a new object under an id that is not in the
    table, [connect_stmt] appends a chain entry, [page_stmt] stores a
    page. *)
Inductive ir_step : IR -> IR -> Prop :=
| step_add (s : IR) (oid typ : string) (kvs : dict PyVal) (loc : PyVal) :
    dict_mem oid (objects s) = false ->
    as_str (attr_get kvs "id") = Some oid ->
    truthy (attr_get kvs "id") = true ->
    ir_step s (ToIR.set_objects (dict_set oid (mkObjectIR oid typ kvs loc)) s)
| step_connect (s : IR) (l : list PyVal) (m : Z * Z) :
    ir_step s (ToIR.set_series (fun c => c ++ [PTuple [PList l; loc_of m]]) s)
| step_page (s : IR) (pid : string) (kvs : dict PyVal) (m : Z * Z) :
    ir_step s (ToIR.set_pages (dict_set pid (mkPageIR pid kvs (loc_of m))) s).

Inductive ir_steps : IR -> IR -> Prop :=
| steps_refl (s : IR) : ir_steps s s
| steps_step (s1 s2 s3 : IR) : ir_steps s1 s2 -> ir_step s2 s3 -> ir_steps s1 s3.

(** A computation that changes the IR by such steps only. *)
Definition by_steps {A} (m : M A) : Prop :=
  forall s r s', m s = (r, s') -> ir_steps s s'.

(** The object [o] stored under the key [k] carries its id: the
    attribute "id" is a string, equal to the id field, not empty, and
    equal to the key. *)
Definition obj_ok (k : string) (o : ObjectIR) : Prop :=
  exists v, dict_get "id" (obj_attrs o) = Some v /\
            as_str v = Some (obj_id o) /\
            obj_id o <> "" /\ k = obj_id o.

Definition objects_ok (ir : IR) : Prop :=
  Forall (fun kv => obj_ok (fst kv) (snd kv)) (objects ir).

Definition nl : string := String (ascii_of_nat 10) "".

(** Scenario 1: a bus, a line, and the chain joining them. *)
Definition c1_text : string :=
  "ADD_BUS id=b1, kv=138" ++ nl ++
  "ADD_LINE id=l1, kv=138, type=OHL, length_km=10, thermal_A=1000" ++ nl ++
  "CONNECT series=[b1, l1]".

Definition SP : Tree := Tok "SP" " ".

Definition add_bus_b1 (line : Z) : Tree :=
  Node "add_stmt"
    [Node "add_bus"
       [SP; Node "bus_params" [Tok "ID" "b1"; SP; Tok "NUM" "138"] (line, 9%Z)]
       (line, 1%Z)]
    (line, 1%Z).

Definition add_line_l1 (line : Z) : Tree :=
  Node "add_stmt"
    [Node "add_line"
       [SP; Node "line_params"
              [Tok "ID" "l1"; SP; Tok "NUM" "138"; SP; Tok "LINE_TYPE" "OHL";
               SP; Tok "NUM" "10"; SP; Tok "NUM" "1000"] (line, 10%Z)]
       (line, 1%Z)]
    (line, 1%Z).

Definition connect_b1_l1 (line : Z) : Tree :=
  Node "connect_stmt"
    [SP; Node "list_id" [Tok "ID" "b1"; SP; Tok "ID" "l1"] (line, 16%Z)]
    (line, 1%Z).

(** The syntax tree of scenario 1: one node per statement, the
    mandatory values as tokens in the order of the statement. *)
Definition c1_tree : Tree :=
  Node "script" [add_bus_b1 1; add_line_l1 2; connect_b1_l1 3] (1%Z, 1%Z).

(** A grammar front end that knows scenario 1. *)
Definition c1_parser (text : string) : (option Z * option Z) + Tree :=
  if String.eqb text c1_text then inr c1_tree else inl (Some 1%Z, Some 1%Z).

Definition c1_bus : ObjectIR :=
  mkObjectIR "b1" "BUS"
    [("id", PStr "b1"); ("kv", PNum (Float64.of_Z 138))]
    (PTuple [PInt 1; PInt 1]).

Definition c1_line : ObjectIR :=
  mkObjectIR "l1" "LINE"
    [("id", PStr "l1"); ("kv", PNum (Float64.of_Z 138));
     ("type", PToken "LINE_TYPE" "OHL");
     ("length_km", PNum (Float64.of_Z 10));
     ("thermal_A", PNum (Float64.of_Z 1000))]
    (PTuple [PInt 2; PInt 1]).

(** The IR of scenario 1. *)
Definition c1_ir : IR :=
  mkIR [("b1", c1_bus); ("l1", c1_line)]
       [PTuple [PList [PToken "SP" " ";
                       PList [PStr "b1"; PToken "SP" " "; PStr "l1"]];
                PTuple [PInt 3; PInt 1]]]
       [] [] [].

(** Every entry of [ir.series] written by [connect_stmt] is the pair of
    a list and a position. *)
Definition series_entries (ir : IR) : Prop :=
  Forall (fun c => exists l m, c = PTuple [PList l; loc_of m]) (series ir).

(** An ADD_* statement with the id [oid]: an [add_stmt] node whose
    children transform, leaving the IR as it is, to values among which
    [add_stmt] finds the tuple ("OBJ", typ, kvs, loc) of an ADD_* rule,
    with the non-empty string [oid] under "id". *)
Definition add_statement (oid : string) (t : Tree) : Prop :=
  oid <> "" /\
  exists ch m, t = Node "add_stmt" ch m /\
    forall s, exists vs kind typ kvs loc,
      transform_children ch s = (inr vs, s) /\
      ToIR.find_item [PList vs]
      = Some (PTuple [kind; PStr typ; PDict kvs; loc_of loc]) /\
      attr_get kvs "id" = PStr oid.




(** An ADD_CT statement of id ct1, and a script that holds it twice. *)
Definition add_ct_stmt (line : Z) : Tree :=
  Node "add_stmt"
    [Node "add_ct" [Tok "ID" "ct1"; SP; Tok "NUM" "138"] (line, 1%Z)]
    (line, 1%Z).

Definition two_add_ct : Tree :=
  Node "script" [add_ct_stmt 1; add_ct_stmt 2] (1%Z, 1%Z).

(** The duplicate-id error of [add_stmt], as [transform] raises it. *)
Definition duplicate_id_error (e : exn) : Prop :=
  exists rule oid, e = VisitError rule (ToIR.Duplicate_id oid).

(** "Transformation fails with a duplicate-id error." *)
Definition fails_with_duplicate_id (t : Tree) : Prop :=
  exists e, run_transformer t = inl e /\ duplicate_id_error e.

(** The pairs [(k, v)] as [opt_kvs] receives them. *)
Definition pairs_of (l : list (string * PyVal)) : list PyVal :=
  map (fun kv => PTuple [PStr (fst kv); snd kv]) l.

(** [k not in d] *)
Definition not_in_dict {V} (d : dict V) (k : string) : bool :=
  negb (dict_mem k d).

(** A computation whose every run relates the IR before to the IR after. *)
Definition respects (P : IR -> IR -> Prop) {A} (m : M A) : Prop :=
  forall s r s', m s = (r, s') -> P s s'.

(** The IR after holds the object table and the chain list of the IR
    before as prefixes, and the same style and meta maps. *)
Definition grows (s s' : IR) : Prop :=
  (exists lo, objects s' = objects s ++ lo) /\
  (exists ls, series s' = series s ++ ls) /\
  style s' = style s /\ meta s' = meta s.

(** The rules whose methods read their children by position. *)
Definition indexed_rules : list string :=
  ["add_earthing_switch"; "add_ct"; "add_vt"; "add_relay_group"; "add_cable";
   "add_shunt_cap_bank"; "add_shunt_reactor"; "add_series_cap"; "add_svc";
   "add_statcom"; "add_surge_arrester"; "add_line_trap";
   "add_station_service_transformer"; "add_dc_system"; "page_stmt"].

(** The ADD_* methods that search their children for a parameter list,
    with the kind they emit and their mandatory keys. *)
Definition scanning_adders
  : list ((Z * Z -> list PyVal -> exn + PyVal) * string * list string) :=
  [ (ToIR.add_bus, "BUS", ["id"; "kv"]);
    (ToIR.add_bay, "BAY", ["id"; "kind"; "kv"; "bus"]);
    (ToIR.add_coupler, "COUPLER", ["id"; "kv"; "from_bus"; "to_bus"]);
    (ToIR.add_breaker, "BREAKER",
       ["id"; "kv"; "interrupting_kA"; "type"; "continuous_A"]);
    (ToIR.add_disconnector, "DISCONNECTOR",
       ["id"; "kv"; "type"; "continuous_A"]);
    (ToIR.add_transformer, "TRANSFORMER",
       ["id"; "type"; "rated_MVA"; "vector_group"; "percentZ"]);
    (ToIR.add_line, "LINE",
       ["id"; "kv"; "type"; "length_km"; "thermal_A"]) ].

(** Every exception of the computation is a [VisitError]. *)
Definition only_visit_errors {A} (m : M A) : Prop :=
  forall s e s', m s = (inl e, s') -> exists rule orig, e = VisitError rule orig.

(** The page table and the style and meta maps are the same. *)
Definition same_pages_style_meta (s s' : IR) : Prop :=
  pages s' = pages s /\ style s' = style s /\ meta s' = meta s.

Definition add_ct_ct1 : Tree :=
  Node "add_ct" [Tok "ID" "ct1"; SP; Tok "NUM" "138"] (1%Z, 1%Z).

(** Every BREAKER of the table is a plain-identifier element of some
    chain. *)
Definition breakers_connected (ir : IR) : Prop :=
  forall oid o, In (oid, o) (objects ir) -> obj_type o = "BREAKER" ->
                in_some_chain (series ir) oid.

(** A non-empty list chain whose elements are identifiers that the
    object table does not hold. *)
Definition undeclared_chain (objs : dict ObjectIR) (chain : PyVal) : Prop :=
  exists items, chain = PList items /\ items <> [] /\
    forall v, In v items -> exists s, as_str v = Some s /\ dict_get s objs = None.

(** The exceptions [validate] can raise. *)
Definition validate_error (e : exn) : Prop :=
  e = E_ID_DUP \/ e = E_CONNECT_EMPTY \/ e = E_CONNECT_ENDPOINT \/
  e = E_VOLT_MISMATCH \/ e = E_PROT_BRK_UNUSED \/
  e = TypeError \/ e = PyExc "OverflowError" "".

(** Chains that name no declared object. *)
Definition ir_undeclared : IR :=
  mkIR [line_obj "lineA" 138]
       [PList [PStr "ghost1"; PStr "ghost2"]; PList [PStr "ghost3"]] [] [] [].

Definition stub (label : string) : PyVal := PDict [("STUB", PStr label)].

(** The tree of an ADD_BUS statement with the given id and kv texts. *)
Definition add_bus_tree (oid kv : string) (m : Z * Z) : Tree :=
  Node "add_stmt"
    [Node "add_bus"
       [SP; Node "bus_params" [Tok "ID" oid; SP; Tok "NUM" kv] m] m] m.

(** The literal fragments the parameter scans filter out. *)
Definition all_literals : list string :=
  ["id="; ","; " "; "kind="; "kv="; "bus="; "from_bus="; "to_bus=";
   "interrupting_kA="; "type="; "continuous_A="; "rated_MVA=";
   "vector_group="; "percentZ="; "length_km="; "thermal_A="].

(** What a parameter rule receives once the token callbacks have run: a
    number, a plain string that is no literal fragment, or the separator
    token. *)
Definition scanned_item (v : PyVal) : Prop :=
  is_number v = true \/
  (exists s, v = PStr s /\ in_strs (PStr s) all_literals = false) \/
  v = PToken "SP" " ".

(** The items that are not tokens. *)
Definition values_of (items : list PyVal) : list PyVal :=
  filter (fun v => negb (is_token v)) items.

(** The parameter rules that collect the values they find, with the
    number of values they return. *)
Definition param_scanners
  : list ((Z * Z -> list PyVal -> exn + PyVal) * nat) :=
  [ (ToIR.bay_params, 4%nat); (ToIR.coupler_params, 4%nat);
    (ToIR.breaker_params, 5%nat); (ToIR.disconnector_params, 4%nat);
    (ToIR.transformer_params, 5%nat); (ToIR.line_params, 5%nat) ].

(** The tree of an ADD_BAY statement with the given parameter children. *)
Definition add_bay_tree (params : list Tree) (m : Z * Z) : Tree :=
  Node "add_stmt" [Node "add_bay" [SP; Node "bay_params" params m] m] m.

(** What is raised where the program formats "... at line {loc[0]}"
    and raises [e]: the exception of the subscript if it has one. *)
Definition raised_at (loc : PyVal) (e : exn) : exn :=
  match ToIR.subscript0 loc with
  | inl e' => e'
  | inr _ => e
  end.

(* ================================================================== *)
(** ** Properties of the validator *)

(** *** Loops that raise *)

Lemma first_error_app {A} (f : A -> exn + unit) (l1 l2 : list A) :
  first_error f (l1 ++ l2) =
  match first_error f l1 with
  | inl e => inl e
  | inr _ => first_error f l2
  end.
Proof.
  induction l1 as [|x l1 IH]; simpl; [reflexivity|].
  destruct (f x); [reflexivity|apply IH].
Qed.

Lemma first_error_ok {A} (f : A -> exn + unit) (l : list A) :
  first_error f l = inr tt <-> Forall (fun x => f x = inr tt) l.
Proof.
  induction l as [|x l IH]; simpl.
  - split; [constructor|reflexivity].
  - destruct (f x) as [e|[]] eqn:E.
    + split; [discriminate|]. intros H. inversion H; subst. congruence.
    + rewrite IH. split; intros H.
      * constructor; assumption.
      * inversion H; assumption.
Qed.

(** A loop raises [e] exactly when some item raises [e] and every item
    before it passes. *)
Lemma first_error_raises {A} (f : A -> exn + unit) (l : list A) (e : exn) :
  first_error f l = inl e <->
  exists pre x post,
    l = pre ++ x :: post /\ Forall (fun y => f y = inr tt) pre /\ f x = inl e.
Proof.
  induction l as [|x l IH]; simpl.
  - split; [discriminate|].
    intros (pre & y & post & H & _). destruct pre; discriminate.
  - destruct (f x) as [e'|[]] eqn:E.
    + split.
      * intros H. exists [], x, l. repeat split; [constructor|congruence].
      * intros (pre & y & post & H & Hpre & Hy).
        destruct pre as [|p pre]; simpl in H; inversion H; subst.
        -- congruence.
        -- inversion Hpre; subst. congruence.
    + rewrite IH. split.
      * intros (pre & y & post & H & Hpre & Hy).
        exists (x :: pre), y, post. subst. repeat split; auto.
      * intros (pre & y & post & H & Hpre & Hy).
        destruct pre as [|p pre]; simpl in H; inversion H; subst.
        -- congruence.
        -- inversion Hpre; subst. exists pre, y, post. auto.
Qed.

(** *** [validate] reads the IR and leaves it as it is *)

Lemma for_each_chains (f : dict ObjectIR -> PyVal -> exn + unit)
      (l : list PyVal) (s : IR) :
  for_each l (fun c => objs <- gets objects ;; lift (f objs c)) s =
  (first_error (f (objects s)) l, s).
Proof.
  induction l as [|c l IH]; simpl; [reflexivity|].
  unfold bind at 1. unfold bind at 1. unfold gets at 1. simpl.
  destruct (f (objects s) c) as [e|[]]; simpl; [reflexivity|apply IH].
Qed.

Lemma validate_run (ir : IR) : validate ir = (validate_outcome ir, ir).
Proof.
  unfold validate, validate_outcome.
  unfold bind at 1. unfold gets at 1.
  unfold bind at 1.
  destruct (negb _); simpl; [reflexivity|].
  unfold bind at 1. unfold gets at 1.
  unfold bind at 1. rewrite for_each_chains.
  destruct (first_error _ _) as [e|[]]; [reflexivity|].
  unfold bind, gets. simpl.
  destruct (check_breakers _ _) as [e|[]]; reflexivity.
Qed.

Lemma validate_result_eq (ir : IR) : validate_result ir = validate_outcome ir.
Proof. unfold validate_result. rewrite validate_run. reflexivity. Qed.

Lemma first_error_in {A} (f : A -> exn + unit) (l : list A) (e : exn) :
  first_error f l = inl e -> exists x, In x l /\ f x = inl e.
Proof.
  intros H. apply first_error_raises in H.
  destruct H as (pre & x & post & -> & _ & Hx).
  exists x. split; [apply in_elt|assumption].
Qed.

(** *** The exceptions each rule can raise *)

Lemma volt_exceeds_error kva kvb e :
  volt_exceeds kva kvb = inl e -> e = TypeError \/ e = PyExc "OverflowError" "".
Proof.
  unfold volt_exceeds.
  repeat match goal with
         | |- context [match ?x with _ => _ end] => destruct x
         end; intros [= <-]; auto.
Qed.

Lemma objects_get_error objs k e : objects_get objs k = inl e -> e = TypeError.
Proof. unfold objects_get. destruct (hashable k); intros [= <-]; reflexivity. Qed.

Lemma check_pair_error objs ab e :
  check_pair objs ab = inl e ->
  e = E_VOLT_MISMATCH \/ e = TypeError \/ e = PyExc "OverflowError" "".
Proof.
  destruct ab as [a b]. unfold check_pair.
  destruct (is_dict a || is_dict b); [discriminate|].
  destruct (objects_get objs a) as [ea|oa] eqn:Ea.
  - apply objects_get_error in Ea. intros [= <-]. auto.
  - destruct (objects_get objs b) as [eb|ob] eqn:Eb.
    + apply objects_get_error in Eb. destruct oa; intros [= <-]; auto.
    + destruct oa as [oa|]; [|discriminate].
      destruct ob as [ob|]; [|discriminate].
      destruct (bus_or_transformer oa ob); [discriminate|].
      destruct (_ && _); [|discriminate].
      destruct (volt_exceeds _ _) as [e'|[]] eqn:Ev.
      * apply volt_exceeds_error in Ev. intros [= <-]. tauto.
      * intros [= <-]. auto.
      * discriminate.
Qed.

Lemma check_endpoint_error n iv e :
  check_endpoint n iv = inl e -> e = E_CONNECT_ENDPOINT.
Proof.
  destruct iv as [i v]. unfold check_endpoint.
  destruct (is_dict v); [|discriminate].
  destruct (_ || _); [discriminate|]. intros [= <-]. reflexivity.
Qed.

Lemma check_chain_error objs chain e :
  check_chain objs chain = inl e -> chain_error e.
Proof.
  unfold check_chain, chain_error.
  destruct (negb (truthy chain)); [intros [= <-]; auto|].
  destruct (py_iter chain) as [items|]; [|intros [= <-]; auto].
  destruct (first_error (check_endpoint _) _) as [e'|[]] eqn:E1.
  - apply first_error_in in E1. destruct E1 as (x & _ & Hx).
    apply check_endpoint_error in Hx. intros [= <-]. auto.
  - destruct (py_tail chain) as [rest|]; [|intros [= <-]; auto].
    intros H. apply first_error_in in H. destruct H as (x & _ & Hx).
    apply check_pair_error in Hx. tauto.
Qed.

Lemma in_series_error chains e : in_series chains = inl e -> e = TypeError.
Proof.
  induction chains as [|c l IH]; simpl; [discriminate|].
  destruct (py_iter c); [|intros [= <-]; reflexivity].
  destruct (in_series l); [|discriminate].
  intros [= <-]. apply IH. reflexivity.
Qed.

Lemma check_breakers_error objs chains e :
  check_breakers objs chains = inl e -> e = E_PROT_BRK_UNUSED \/ e = TypeError.
Proof.
  unfold check_breakers.
  destruct (in_series chains) as [e'|used] eqn:E.
  - apply in_series_error in E. intros [= <-]. auto.
  - intros H. apply first_error_in in H. destruct H as (x & _ & Hx).
    destruct (mem_str x used); [discriminate|]. inversion Hx. auto.
Qed.

Lemma nodup_length_NoDup (l : list string) :
  NoDup l -> List.length (nodup string_dec l) = List.length l.
Proof. intros H. rewrite (nodup_fixed_point string_dec H). reflexivity. Qed.

(** C8. [validate] is read-only: whether it returns or raises, the IR
    (object table, chain list, page table, style and meta maps) after
    the call is the IR before it. *)
Theorem validate_read_only (ir : IR) :
  snd (validate ir) = ir /\
  objects (snd (validate ir)) = objects ir /\
  series (snd (validate ir)) = series ir /\
  pages (snd (validate ir)) = pages ir /\
  style (snd (validate ir)) = style ir /\
  meta (snd (validate ir)) = meta ir.
Proof. rewrite validate_run. simpl. repeat split. Qed.

(** C9. When the object table is a mapping (each key held once), the
    set of its keys has as many elements as the table, so the test of
    rule 1 is false and [validate] never raises E.ID.DUP. *)
Theorem validate_never_id_dup (ir : IR) :
  dict_wf (objects ir) ->
  List.length (nodup string_dec (dict_keys (objects ir))) = dict_len (objects ir)
  /\ validate_result ir <> inl E_ID_DUP.
Proof.
  intros Hwf.
  assert (Hlen : List.length (nodup string_dec (dict_keys (objects ir)))
                 = dict_len (objects ir)).
  { rewrite (nodup_length_NoDup _ Hwf). unfold dict_len, dict_keys.
    apply length_map. }
  split; [exact Hlen|].
  rewrite validate_result_eq. unfold validate_outcome.
  rewrite Hlen, Nat.eqb_refl. simpl.
  destruct (first_error _ _) as [e|[]] eqn:E.
  - apply first_error_in in E. destruct E as (c & _ & Hc).
    apply check_chain_error in Hc. intros [= ->].
    unfold chain_error in Hc. repeat destruct Hc as [Hc|Hc]; discriminate.
  - intros H. apply check_breakers_error in H. destruct H; discriminate.
Qed.

Lemma validate_never_id_dup_witness :
  dict_wf (objects ir_mismatch) /\
  validate_result ir_mismatch <> inl E_ID_DUP.
Proof.
  assert (Hwf : dict_wf (objects ir_mismatch)).
  { unfold dict_wf. simpl. repeat constructor; simpl; intuition discriminate. }
  split; [exact Hwf|].
  exact (proj2 (validate_never_id_dup ir_mismatch Hwf)).
Defined.

(** *** The endpoint rule *)

Lemma first_error_exists {A} (f : A -> exn + unit) (l : list A) x e :
  In x l -> f x = inl e -> exists e', first_error f l = inl e'.
Proof.
  induction l as [|y l IH]; simpl; [tauto|].
  intros [->|Hin] Hx.
  - rewrite Hx. eauto.
  - destruct (f y) as [e'|[]]; eauto.
Qed.

Lemma in_enumerate_from {A} (l : list A) k i v :
  In (i, v) (enumerate_from k l) <->
  (k <= i)%nat /\ nth_error l (i - k) = Some v.
Proof.
  revert k. induction l as [|x l IH]; intros k; simpl.
  - split; [tauto|]. intros [_ H]. destruct (i - k)%nat; discriminate.
  - rewrite IH. split.
    + intros [[= <- <-]|[Hle Hn]].
      * split; [lia|]. rewrite Nat.sub_diag. reflexivity.
      * split; [lia|]. replace (i - k)%nat with (S (i - S k)) by lia. exact Hn.
    + intros [Hle Hn]. destruct (Nat.eq_dec i k) as [->|Hne].
      * rewrite Nat.sub_diag in Hn. simpl in Hn. left. congruence.
      * right. split; [lia|].
        replace (i - k)%nat with (S (i - S k)) in Hn by lia. exact Hn.
Qed.

Lemma in_enumerate {A} (l : list A) i v :
  In (i, v) (enumerate l) <-> nth_error l i = Some v.
Proof.
  unfold enumerate. rewrite in_enumerate_from, Nat.sub_0_r.
  split; [tauto|]. intros H. split; [lia|exact H].
Qed.

Lemma endpoint_loop_raises (items : list PyVal) :
  (exists e, first_error (check_endpoint (List.length items)) (enumerate items)
             = inl e) <->
  exists i v, nth_error items i = Some v /\ is_dict v = true /\
              i <> 0%nat /\ i <> (List.length items - 1)%nat.
Proof.
  split.
  - intros [e H]. apply first_error_in in H. destruct H as ([i v] & Hin & H).
    apply in_enumerate in Hin. exists i, v. unfold check_endpoint in H.
    destruct (is_dict v); [|discriminate].
    destruct (Nat.eqb i 0) eqn:E0; [discriminate|].
    destruct (Nat.eqb i (List.length items - 1)) eqn:E1; [discriminate|].
    apply Nat.eqb_neq in E0, E1. auto.
  - intros (i & v & Hn & Hd & H0 & H1).
    apply (first_error_exists _ _ (i, v) E_CONNECT_ENDPOINT).
    + apply in_enumerate. exact Hn.
    + unfold check_endpoint. rewrite Hd.
      apply Nat.eqb_neq in H0, H1. rewrite H0, H1. reflexivity.
Qed.

Lemma chars_not_dict (s : string) v : In v (chars s) -> is_dict v = false.
Proof.
  induction s as [|c s IH]; simpl; [tauto|].
  intros [<-|H]; [reflexivity|auto].
Qed.

Lemma interior_terminal_truthy chain :
  interior_terminal chain -> truthy chain = true.
Proof.
  intros (items & i & v & Hit & Hn & Hd & _).
  assert (Hin : In v items) by (eapply nth_error_In; eauto).
  destruct chain; simpl in Hit; try discriminate; inversion Hit; subst.
  - apply chars_not_dict in Hin. congruence.
  - apply chars_not_dict in Hin. congruence.
  - simpl. destruct items; [destruct Hin|reflexivity].
  - simpl. destruct items; [destruct Hin|reflexivity].
  - apply in_map_iff in Hin. destruct Hin as (kv & <- & _). discriminate.
Qed.

(** The rules of one chain raise E.CONNECT.ENDPOINT exactly when the
    chain has a Terminal at an interior index. *)
Lemma check_chain_endpoint objs chain :
  check_chain objs chain = inl E_CONNECT_ENDPOINT <-> interior_terminal chain.
Proof.
  split.
  - unfold check_chain.
    destruct (negb (truthy chain)); [discriminate|].
    destruct (py_iter chain) as [items|] eqn:Hit; [|discriminate].
    destruct (first_error (check_endpoint _) _) as [e|[]] eqn:E1.
    + intros _. exists items.
      destruct (proj1 (endpoint_loop_raises items) (ex_intro _ e E1))
        as (i & v & H).
      exists i, v. tauto.
    + destruct (py_tail chain); [|discriminate].
      intros H. apply first_error_in in H. destruct H as (x & _ & Hx).
      apply check_pair_error in Hx.
      destruct Hx as [Hx|[Hx|Hx]]; discriminate.
  - intros Hint. pose proof (interior_terminal_truthy _ Hint) as Ht.
    destruct Hint as (items & i & v & Hit & H).
    unfold check_chain. rewrite Ht, Hit. simpl.
    assert (Hex : exists i v, nth_error items i = Some v /\ is_dict v = true /\
                   i <> 0%nat /\ i <> (List.length items - 1)%nat)
      by (exists i, v; exact H).
    destruct (proj2 (endpoint_loop_raises items) Hex) as [e He].
    rewrite He. apply first_error_in in He. destruct He as (x & _ & Hx).
    apply check_endpoint_error in Hx. congruence.
Qed.

Lemma dup_test_wf (ir : IR) :
  dict_wf (objects ir) ->
  negb (Nat.eqb (List.length (nodup string_dec (dict_keys (objects ir))))
                (dict_len (objects ir))) = false.
Proof.
  intros Hwf. rewrite (nodup_length_NoDup _ Hwf).
  unfold dict_len, dict_keys. rewrite length_map, Nat.eqb_refl. reflexivity.
Qed.

(** C3, as amended. On an IR whose object table is a mapping, [validate]
    raises E.CONNECT.ENDPOINT exactly when some chain has a Terminal at an
    index other than the first and the last, and every chain before that
    one passes all its rules (validation stops at the first violation). *)
Theorem validate_endpoint_iff (ir : IR) :
  dict_wf (objects ir) ->
  (validate_result ir = inl E_CONNECT_ENDPOINT <->
   exists pre chain post,
     series ir = pre ++ chain :: post /\
     Forall (chain_passes (objects ir)) pre /\
     interior_terminal chain).
Proof.
  intros Hwf. rewrite validate_result_eq. unfold validate_outcome.
  rewrite (dup_test_wf _ Hwf).
  split.
  - destruct (first_error _ _) as [e|[]] eqn:E.
    + intros [= ->]. apply first_error_raises in E.
      destruct E as (pre & c & post & Hs & Hpre & Hc).
      exists pre, c, post. repeat split; auto.
      apply (check_chain_endpoint (objects ir)). exact Hc.
    + intros H. apply check_breakers_error in H. destruct H; discriminate.
  - intros (pre & c & post & Hs & Hpre & Hc).
    apply (check_chain_endpoint (objects ir)) in Hc.
    assert (E : first_error (check_chain (objects ir)) (series ir)
                = inl E_CONNECT_ENDPOINT).
    { apply first_error_raises. exists pre, c, post. auto. }
    rewrite E. reflexivity.
Qed.

Lemma ir_interior_has_terminal :
  interior_terminal (PList [PStr "brk1"; open_end; PStr "bus1"]).
Proof.
  exists [PStr "brk1"; open_end; PStr "bus1"], 1%nat, open_end.
  simpl. repeat split; lia.
Qed.

Lemma validate_endpoint_iff_witness :
  dict_wf (objects ir_interior) /\
  validate_result ir_interior = inl E_CONNECT_ENDPOINT.
Proof.
  assert (Hwf : dict_wf (objects ir_interior)) by constructor.
  split; [exact Hwf|].
  apply (proj2 (validate_endpoint_iff ir_interior Hwf)).
  exists [], (PList [PStr "brk1"; open_end; PStr "bus1"]), [].
  split; [reflexivity|]. split; [constructor|apply ir_interior_has_terminal].
Defined.

(** C3, counterexample. The second chain holds OPEN_END between two
    identifiers, yet validation stops at the empty first chain with
    E.CONNECT.EMPTY. *)
Lemma validate_endpoint_counterexample :
  ~ (validate_result ir_empty_then_interior = inl E_CONNECT_ENDPOINT <->
     exists chain, In chain (series ir_empty_then_interior) /\
                   interior_terminal chain).
Proof.
  intros [_ H].
  assert (E : validate_result ir_empty_then_interior = inl E_CONNECT_EMPTY)
    by reflexivity.
  rewrite E in H.
  assert (Hc : inl E_CONNECT_EMPTY = @inl exn unit E_CONNECT_ENDPOINT).
  { apply H. exists (PList [PStr "brk1"; open_end; PStr "bus1"]).
    split; [simpl; auto|apply ir_interior_has_terminal]. }
  discriminate Hc.
Qed.

(** *** The voltage rule *)

Lemma volt_exceeds_floats (x y : Float64.float) :
  volt_exceeds (PNum x) (PNum y) = inr (exceeds_tolerance x y).
Proof.
  unfold volt_exceeds, exceeds_tolerance. simpl.
  unfold float_mul_num, num_max. simpl.
  destruct (Float64.ltb x y); reflexivity.
Qed.

Lemma bus_or_transformer_spec oa ob :
  bus_or_transformer oa ob = true <->
  is_bus_or_transformer oa \/ is_bus_or_transformer ob.
Proof.
  unfold bus_or_transformer, is_bus_or_transformer. simpl.
  rewrite !orb_true_iff, !String.eqb_eq. intuition discriminate.
Qed.

Lemma bus_or_transformer_false oa ob :
  bus_or_transformer oa ob = false <->
  ~ is_bus_or_transformer oa /\ ~ is_bus_or_transformer ob.
Proof.
  rewrite <- not_true_iff_false, bus_or_transformer_spec. tauto.
Qed.

(** On a compared pair the rule raises exactly when the tolerance is
    exceeded, and passes otherwise. *)
Lemma check_pair_compared objs a b kva kvb :
  compared_pair objs a b kva kvb ->
  check_pair objs (a, b) =
  if exceeds_tolerance kva kvb then inl E_VOLT_MISMATCH else inr tt.
Proof.
  intros (Ha & Hb & oa & ob & Hoa & Hob & Hta & Htb & Hka & Hkb).
  unfold check_pair. rewrite Ha, Hb, Hoa, Hob. simpl.
  rewrite (proj2 (bus_or_transformer_false oa ob) (conj Hta Htb)).
  rewrite Hka, Hkb. simpl. rewrite volt_exceeds_floats. reflexivity.
Qed.

Lemma dict_get_In {V} (k : string) (d : dict V) (v : V) :
  dict_get k d = Some v -> In (k, v) d.
Proof.
  induction d as [|[k' v'] d IH]; simpl; [discriminate|].
  destruct (String.eqb k k') eqn:E.
  - apply String.eqb_eq in E. intros [= ->]. left. congruence.
  - intros H. right. auto.
Qed.

Lemma objects_get_In objs k o :
  objects_get objs k = inr (Some o) -> exists s, In (s, o) objs.
Proof.
  unfold objects_get. destruct (hashable k); [|discriminate].
  destruct (as_str k) as [s|]; [|discriminate].
  intros [= H]. exists s. apply dict_get_In. exact H.
Qed.

(** When the rule raises E.VOLT.MISMATCH on a pair, the pair is a
    compared pair exceeding the tolerance. *)
Lemma check_pair_mismatch objs a b :
  kv_floats objs ->
  check_pair objs (a, b) = inl E_VOLT_MISMATCH ->
  exists kva kvb, compared_pair objs a b kva kvb /\
                  exceeds_tolerance kva kvb = true.
Proof.
  intros Hkv. unfold check_pair.
  destruct (is_dict a) eqn:Ha; [discriminate|].
  destruct (is_dict b) eqn:Hb; [discriminate|]. simpl.
  destruct (objects_get objs a) as [ea|[oa|]] eqn:Hoa.
  - apply objects_get_error in Hoa. subst. discriminate.
  - destruct (objects_get objs b) as [eb|[ob|]] eqn:Hob.
    + apply objects_get_error in Hob. subst. discriminate.
    + destruct (bus_or_transformer oa ob) eqn:Hbt; [discriminate|].
      apply bus_or_transformer_false in Hbt. destruct Hbt as [Hta Htb].
      destruct (objects_get_In _ _ _ Hoa) as [sa Hina].
      destruct (objects_get_In _ _ _ Hob) as [sb Hinb].
      unfold kv_floats in Hkv. rewrite Forall_forall in Hkv.
      pose proof (Hkv _ Hina) as Hka. pose proof (Hkv _ Hinb) as Hkb.
      simpl in Hka, Hkb.
      destruct Hka as [Hka|[x Hka]]; rewrite Hka; [discriminate|].
      destruct Hkb as [Hkb|[y Hkb]]; rewrite Hkb; [discriminate|].
      simpl. rewrite volt_exceeds_floats.
      destruct (exceeds_tolerance x y) eqn:E; [|discriminate].
      intros _. exists x, y. split; [|exact E].
      split; [exact Ha|]. split; [exact Hb|].
      exists oa, ob. repeat split; assumption.
    + discriminate.
  - destruct (objects_get objs b) as [eb|ob] eqn:Hob; [|discriminate].
    apply objects_get_error in Hob. subst. discriminate.
Qed.

Lemma endpoint_loop_ok (chain : PyVal) (items : list PyVal) :
  py_iter chain = Some items ->
  (first_error (check_endpoint (List.length items)) (enumerate items) = inr tt
   <-> ~ interior_terminal chain).
Proof.
  intros Hit. split.
  - intros Hok (items' & i & v & Hit' & H).
    rewrite Hit in Hit'. inversion Hit'; subst items'.
    assert (Hex : exists i v, nth_error items i = Some v /\ is_dict v = true /\
                   i <> 0%nat /\ i <> (List.length items - 1)%nat)
      by (exists i, v; exact H).
    destruct (proj2 (endpoint_loop_raises items) Hex) as [e He]. congruence.
  - intros Hno.
    destruct (first_error _ _) as [e|[]] eqn:E; [|reflexivity].
    exfalso. apply Hno.
    destruct (proj1 (endpoint_loop_raises items) (ex_intro _ e E))
      as (i & v & H).
    exists items, i, v. tauto.
Qed.

Lemma check_chain_mismatch objs chain :
  kv_floats objs ->
  (check_chain objs chain = inl E_VOLT_MISMATCH <-> chain_mismatch objs chain).
Proof.
  intros Hkv. unfold check_chain, chain_mismatch, adjacent_pairs. split.
  - destruct (truthy chain); [|discriminate]. simpl.
    destruct (py_iter chain) as [items|] eqn:Hit; [|discriminate].
    destruct (first_error (check_endpoint _) _) as [e|[]] eqn:E1.
    + apply first_error_in in E1. destruct E1 as (x & _ & Hx).
      apply check_endpoint_error in Hx. subst. discriminate.
    + apply (endpoint_loop_ok chain items Hit) in E1.
      destruct (py_tail chain) as [rest|]; [|discriminate].
      intros H. apply first_error_raises in H.
      destruct H as (ppre & [a b] & ppost & Hz & Hpre & Hab).
      destruct (check_pair_mismatch objs a b Hkv Hab) as (kva & kvb & Hc & He).
      split; [reflexivity|]. split; [exact E1|].
      exists (zip items rest), ppre, a, b, ppost, kva, kvb. auto.
  - intros (Ht & Hno & pairs & ppre & a & b & ppost & kva & kvb
            & Hadj & Hz & Hpre & Hc & He).
    rewrite Ht. simpl.
    destruct (py_iter chain) as [items|] eqn:Hit; [|discriminate].
    rewrite (proj2 (endpoint_loop_ok chain items Hit) Hno).
    destruct (py_tail chain) as [rest|]; [|discriminate].
    inversion Hadj; subst pairs.
    apply first_error_raises. exists ppre, (a, b), ppost.
    repeat split; auto.
    rewrite (check_pair_compared objs a b kva kvb Hc), He. reflexivity.
Qed.

(** C2, as amended. On an IR whose object table is a mapping with float
    kv attributes: [validate] raises E.VOLT.MISMATCH exactly when the
    first rule to fail, in chain order, is the voltage rule of a compared
    pair whose difference exceeds 0.15 times the larger voltage (binary64
    arithmetic); on a compared pair the rule raises exactly then, and a
    difference at or under the threshold passes; a pair with an id that
    is not in the table, with a BUS or TRANSFORMER, or without a kv is
    skipped. *)
Theorem validate_volt_mismatch (ir : IR) :
  dict_wf (objects ir) -> kv_floats (objects ir) ->
  (validate_result ir = inl E_VOLT_MISMATCH <->
   exists pre chain post,
     series ir = pre ++ chain :: post /\
     Forall (chain_passes (objects ir)) pre /\
     chain_mismatch (objects ir) chain)
  /\
  (forall a b kva kvb,
     compared_pair (objects ir) a b kva kvb ->
     (check_pair (objects ir) (a, b) = inl E_VOLT_MISMATCH <->
      exceeds_tolerance kva kvb = true) /\
     (exceeds_tolerance kva kvb = false ->
      check_pair (objects ir) (a, b) = inr tt))
  /\
  (forall a b sa sb,
     as_str a = Some sa -> as_str b = Some sb ->
     (dict_get sa (objects ir) = None \/ dict_get sb (objects ir) = None ->
      check_pair (objects ir) (a, b) = inr tt) /\
     (forall oa ob,
        dict_get sa (objects ir) = Some oa ->
        dict_get sb (objects ir) = Some ob ->
        is_bus_or_transformer oa \/ is_bus_or_transformer ob \/
        attr_get (obj_attrs oa) "kv" = PNone \/
        attr_get (obj_attrs ob) "kv" = PNone ->
        check_pair (objects ir) (a, b) = inr tt)).
Proof.
  intros Hwf Hkv. split; [|split].
  - rewrite validate_result_eq. unfold validate_outcome.
    rewrite (dup_test_wf _ Hwf). split.
    + destruct (first_error _ _) as [e|[]] eqn:E.
      * intros [= ->]. apply first_error_raises in E.
        destruct E as (pre & c & post & Hs & Hpre & Hc).
        exists pre, c, post. split; [exact Hs|]. split; [exact Hpre|].
        apply (check_chain_mismatch _ _ Hkv). exact Hc.
      * intros H. apply check_breakers_error in H. destruct H; discriminate.
    + intros (pre & c & post & Hs & Hpre & Hc).
      apply (check_chain_mismatch _ _ Hkv) in Hc.
      assert (E : first_error (check_chain (objects ir)) (series ir)
                  = inl E_VOLT_MISMATCH).
      { apply first_error_raises. exists pre, c, post. auto. }
      rewrite E. reflexivity.
  - intros a b kva kvb Hc.
    rewrite (check_pair_compared _ a b kva kvb Hc).
    destruct (exceeds_tolerance kva kvb); split; try split;
      congruence || discriminate || reflexivity.
  - intros a b sa sb Ha Hb.
    assert (Hda : is_dict a = false) by (destruct a; simpl in *; congruence).
    assert (Hdb : is_dict b = false) by (destruct b; simpl in *; congruence).
    assert (Hha : hashable a = true) by (destruct a; simpl in *; congruence).
    assert (Hhb : hashable b = true) by (destruct b; simpl in *; congruence).
    unfold check_pair, objects_get. rewrite Hda, Hdb, Hha, Hhb, Ha, Hb. simpl.
    split.
    + intros [H|H]; rewrite H; [reflexivity|].
      destruct (dict_get sa (objects ir)); reflexivity.
    + intros oa ob Hoa Hob H. rewrite Hoa, Hob.
      destruct (bus_or_transformer oa ob) eqn:Hbt; [reflexivity|].
      apply bus_or_transformer_false in Hbt.
      destruct H as [H|[H|[H|H]]]; try tauto.
      * rewrite H. reflexivity.
      * rewrite H. simpl. rewrite andb_false_r. reflexivity.
Qed.

Lemma lines_compared (chains : list PyVal) :
  compared_pair
    (objects (mkIR [line_obj "lineA" 138; line_obj "lineB" 230] chains [] [] []))
    (PStr "lineA") (PStr "lineB") (Float64.of_Z 138) (Float64.of_Z 230).
Proof.
  split; [reflexivity|]. split; [reflexivity|].
  exists (snd (line_obj "lineA" 138)), (snd (line_obj "lineB" 230)).
  repeat split; try reflexivity;
    intros [H|H]; discriminate H.
Qed.

Lemma lines_no_interior_terminal :
  ~ interior_terminal (PList [PStr "lineA"; PStr "lineB"]).
Proof.
  intros (items & i & v & Hit & Hn & Hd & _).
  inversion Hit; subst items.
  destruct i as [|[|i]]; simpl in Hn.
  - inversion Hn; subst. discriminate.
  - inversion Hn; subst. discriminate.
  - destruct i; discriminate.
Qed.

Lemma validate_volt_mismatch_witness :
  dict_wf (objects ir_mismatch) /\ kv_floats (objects ir_mismatch) /\
  validate_result ir_mismatch = inl E_VOLT_MISMATCH.
Proof.
  assert (Hwf : dict_wf (objects ir_mismatch)).
  { unfold dict_wf. simpl. repeat constructor; simpl; intuition discriminate. }
  assert (Hkv : kv_floats (objects ir_mismatch)).
  { unfold kv_floats. simpl.
    apply Forall_cons; [right; eexists; reflexivity|].
    apply Forall_cons; [right; eexists; reflexivity|]. apply Forall_nil. }
  split; [exact Hwf|]. split; [exact Hkv|].
  apply (proj2 (proj1 (validate_volt_mismatch ir_mismatch Hwf Hkv))).
  exists [], (PList [PStr "lineA"; PStr "lineB"]), [].
  split; [reflexivity|]. split; [constructor|].
  split; [reflexivity|]. split; [exact lines_no_interior_terminal|].
  exists [(PStr "lineA", PStr "lineB")], [], (PStr "lineA"), (PStr "lineB"), [],
         (Float64.of_Z 138), (Float64.of_Z 230).
  split; [reflexivity|]. split; [reflexivity|]. split; [constructor|].
  split; [apply lines_compared|]. vm_compute. reflexivity.
Defined.

(** C2, counterexample. The second chain joins a 138 kV line to a
    230 kV line (92 > 0.15 * 230), a compared pair exceeding the
    tolerance, yet validation stops at the empty first chain with
    E.CONNECT.EMPTY. *)
Lemma validate_volt_counterexample :
  ~ volt_rule_per_pair ir_empty_then_mismatch.
Proof.
  intros H.
  specialize (H (PList [PStr "lineA"; PStr "lineB"])
                [(PStr "lineA", PStr "lineB")]
                (PStr "lineA") (PStr "lineB")
                (Float64.of_Z 138) (Float64.of_Z 230)).
  assert (E : validate_result ir_empty_then_mismatch = inl E_CONNECT_EMPTY)
    by (vm_compute; reflexivity).
  rewrite E in H.
  assert (Hc : inl E_CONNECT_EMPTY = @inl exn unit E_VOLT_MISMATCH).
  { apply H.
    - simpl. auto.
    - reflexivity.
    - simpl. auto.
    - apply lines_compared.
    - vm_compute. reflexivity. }
  discriminate Hc.
Qed.

(** *** The breaker rule *)

Lemma mem_str_In (s : string) (l : list string) :
  mem_str s l = true <-> In s l.
Proof.
  unfold mem_str. rewrite existsb_exists. split.
  - intros (x & Hin & E). apply String.eqb_eq in E. congruence.
  - intros Hin. exists s. split; [exact Hin|apply String.eqb_refl].
Qed.

Lemma breakers_In (objs : dict ObjectIR) (oid : string) :
  In oid (breakers objs) <->
  exists o, In (oid, o) objs /\ obj_type o = "BREAKER".
Proof.
  unfold breakers. rewrite in_map_iff. split.
  - intros ([k o] & <- & Hin). apply filter_In in Hin. simpl in Hin.
    destruct Hin as [Hin E]. apply String.eqb_eq in E. eauto.
  - intros (o & Hin & E). exists (oid, o). split; [reflexivity|].
    apply filter_In. split; [exact Hin|]. simpl. apply String.eqb_eq. exact E.
Qed.

Lemma strs_of_In (items : list PyVal) (s : string) :
  In s (strs_of items) <-> exists v, In v items /\ as_str v = Some s.
Proof.
  unfold strs_of. rewrite in_flat_map. split.
  - intros (v & Hin & H). exists v. split; [exact Hin|].
    destruct (as_str v) as [s'|]; simpl in H; [|tauto].
    destruct H as [->|[]]. reflexivity.
  - intros (v & Hin & H). exists v. split; [exact Hin|].
    rewrite H. simpl. auto.
Qed.

Lemma check_chain_iterable objs chain :
  check_chain objs chain = inr tt -> exists items, py_iter chain = Some items.
Proof.
  unfold check_chain. destruct (negb (truthy chain)); [discriminate|].
  destruct (py_iter chain) as [items|]; [eauto|discriminate].
Qed.

Lemma in_series_spec (chains : list PyVal) :
  Forall (fun c => exists items, py_iter c = Some items) chains ->
  exists used, in_series chains = inr used /\
               forall s, In s used <-> in_some_chain chains s.
Proof.
  induction 1 as [|c l [items Hit] Hl (used & Hu & Hspec)]; simpl.
  - exists []. split; [reflexivity|]. intros s. split; [intros []|].
    intros (c & _ & _ & [] & _).
  - rewrite Hit, Hu. exists (strs_of items ++ used). split; [reflexivity|].
    intros s. rewrite in_app_iff, strs_of_In, Hspec. split.
    + intros [(v & Hin & Hs)|(c' & items' & v & Hc & Hit' & Hin & Hs)].
      * exists c, items, v. simpl. auto.
      * exists c', items', v. simpl. auto.
    + intros (c' & items' & v & [<-|Hc] & Hit' & Hin & Hs).
      * left. rewrite Hit in Hit'. inversion Hit'; subst. eauto.
      * right. exists c', items', v. auto.
Qed.

(** C5. On an IR on which rules 1 and 2 pass, [validate] raises
    E.PROT.BRK_UNUSED exactly when some object of kind BREAKER has an id
    that is not a plain-identifier element of any chain; the outcome of
    [validate] is then the outcome of this one check over the whole IR,
    and it returns normally otherwise. *)
Theorem validate_breaker_unused (ir : IR) :
  earlier_rules_pass ir ->
  (validate_result ir = inl E_PROT_BRK_UNUSED <->
   exists oid o, In (oid, o) (objects ir) /\ obj_type o = "BREAKER" /\
                 ~ in_some_chain (series ir) oid)
  /\ validate_result ir = check_breakers (objects ir) (series ir)
  /\ (validate_result ir = inl E_PROT_BRK_UNUSED \/ validate_result ir = inr tt).
Proof.
  intros [Hdup Hchains].
  assert (Hres : validate_result ir = check_breakers (objects ir) (series ir)).
  { rewrite validate_result_eq. unfold validate_outcome.
    rewrite Hdup, Nat.eqb_refl. simpl.
    rewrite (proj2 (first_error_ok _ _) Hchains). reflexivity. }
  assert (Hit : Forall (fun c => exists items, py_iter c = Some items) (series ir)).
  { eapply Forall_impl; [|exact Hchains].
    intros c Hc. eapply check_chain_iterable. exact Hc. }
  destruct (in_series_spec _ Hit) as (used & Hu & Hspec).
  rewrite Hres. unfold check_breakers. rewrite Hu.
  split; [|split; [reflexivity|]].
  - split.
    + intros H. apply first_error_in in H. destruct H as (brk & Hin & Hb).
      destruct (mem_str brk used) eqn:Hm; [discriminate|].
      apply breakers_In in Hin. destruct Hin as (o & Hin & Ht).
      exists brk, o. repeat split; auto.
      intros Hc. apply Hspec in Hc. apply mem_str_In in Hc. congruence.
    + intros (oid & o & Hin & Ht & Hno).
      assert (Hb : In oid (breakers (objects ir)))
        by (apply breakers_In; eauto).
      assert (Hm : mem_str oid used = false).
      { destruct (mem_str oid used) eqn:Hm; [|reflexivity].
        exfalso. apply Hno, Hspec, mem_str_In. exact Hm. }
      destruct (first_error_exists
                  (fun brk => if mem_str brk used then inr tt
                              else inl E_PROT_BRK_UNUSED)
                  (breakers (objects ir)) oid E_PROT_BRK_UNUSED Hb) as [e He].
      { rewrite Hm. reflexivity. }
      rewrite He. apply first_error_in in He. destruct He as (x & _ & Hx).
      destruct (mem_str x used); [discriminate|]. congruence.
  - destruct (first_error _ _) as [e|[]] eqn:E; [|auto].
    apply first_error_in in E. destruct E as (x & _ & Hx).
    destruct (mem_str x used); [discriminate|]. left. congruence.
Qed.

Lemma validate_breaker_unused_witness :
  earlier_rules_pass ir_unused_breaker /\
  validate_result ir_unused_breaker = inl E_PROT_BRK_UNUSED.
Proof.
  assert (H : earlier_rules_pass ir_unused_breaker).
  { split; [reflexivity|]. apply Forall_cons; [reflexivity|apply Forall_nil]. }
  split; [exact H|].
  apply (proj2 (proj1 (validate_breaker_unused ir_unused_breaker H))).
  exists "brk1", (snd (breaker_obj "brk1")).
  split; [simpl; auto|]. split; [reflexivity|].
  intros (chain & items & v & Hc & Hit & Hin & Hs).
  simpl in Hc. destruct Hc as [<-|[]]. inversion Hit; subst items.
  simpl in Hin. destruct Hin as [<-|[]]. discriminate Hs.
Defined.

(* ================================================================== *)
(** ** Properties of the transformer *)

(** *** Dictionaries *)

Lemma dict_get_set {V} (k k' : string) (v : V) (d : dict V) :
  dict_get k (dict_set k' v d) =
  if String.eqb k k' then Some v else dict_get k d.
Proof.
  induction d as [|[k1 v1] d IH]; simpl.
  - destruct (String.eqb k k'); reflexivity.
  - destruct (String.eqb k' k1) eqn:E1; simpl.
    + apply String.eqb_eq in E1. subst k1.
      destruct (String.eqb k k'); reflexivity.
    + rewrite IH. destruct (String.eqb k k') eqn:E; [|reflexivity].
      apply String.eqb_eq in E. subst k'. rewrite E1. reflexivity.
Qed.

Lemma dict_get_absent {V} (k : string) (d : dict V) :
  ~ In k (dict_keys d) -> dict_get k d = None.
Proof.
  induction d as [|[k1 v1] d IH]; simpl; [reflexivity|].
  intros H. destruct (String.eqb k k1) eqn:E.
  - apply String.eqb_eq in E. subst. tauto.
  - apply IH. tauto.
Qed.

(** After [d.update(e)] a key of [e] has the value [e] gives it, any
    other key keeps its value in [d]. *)
Lemma dict_get_update {V} (k : string) (e d : dict V) :
  dict_wf e ->
  dict_get k (dict_update d e) =
  match dict_get k e with
  | Some v => Some v
  | None => dict_get k d
  end.
Proof.
  unfold dict_update, dict_wf. revert d.
  induction e as [|[k1 v1] e IH]; intros d Hwf; simpl; [reflexivity|].
  inversion Hwf as [|? ? Hnin Hwf']; subst.
  rewrite (IH _ Hwf'), dict_get_set.
  destruct (String.eqb k k1) eqn:E; [|reflexivity].
  apply String.eqb_eq in E. subst k1.
  rewrite (dict_get_absent k e Hnin). reflexivity.
Qed.

(** C6. The merged attribute map gives each key of the mandatory map
    [M] its value in [M], and each key found only in the extension map
    [E] its value in [E]; when [E] is absent or empty the result is [M]. *)
Theorem merge_front_lookup (M : dict PyVal) (E : option (dict PyVal))
                           (k : string) :
  dict_wf M ->
  dict_get k (_merge_front M E) =
    match dict_get k M with
    | Some v => Some v
    | None => match E with
              | Some e => dict_get k e
              | None => None
              end
    end
  /\ (E = None \/ E = Some [] -> _merge_front M E = M).
Proof.
  intros Hwf. split.
  - unfold _merge_front. destruct E as [[|kv e]|]; simpl.
    + destruct (dict_get k M); reflexivity.
    + apply (dict_get_update k M (kv :: e) Hwf).
    + destruct (dict_get k M); reflexivity.
  - intros [->| ->]; reflexivity.
Qed.

Lemma merge_front_lookup_witness :
  dict_wf [("id", PStr "b1"); ("kv", PInt 138)] /\
  dict_get "kv" (_merge_front [("id", PStr "b1"); ("kv", PInt 138)]
                              (Some [("kv", PInt 230); ("note", PStr "x")]))
  = Some (PInt 138).
Proof.
  assert (Hwf : dict_wf [("id", PStr "b1"); ("kv", PInt 138)]).
  { unfold dict_wf. simpl. repeat constructor; simpl; intuition discriminate. }
  split; [exact Hwf|].
  exact (proj1 (merge_front_lookup _ (Some [("kv", PInt 230); ("note", PStr "x")])
                                   "kv" Hwf)).
Defined.

(** *** The IR changes by registrations, chain entries and pages only *)

Lemma Tree_ind' (P : Tree -> Prop) :
  (forall ty v, P (Tok ty v)) ->
  (forall d ch m, Forall P ch -> P (Node d ch m)) ->
  forall t, P t.
Proof.
  intros Htok Hnode. fix IH 1. intros [d ch m|ty v].
  - apply Hnode. induction ch as [|c ch IHch]; constructor.
    + apply IH.
    + exact IHch.
  - apply Htok.
Qed.

Lemma transform_node (d : string) (ch : list Tree) (m : Z * Z) :
  ToIR.transform (Node d ch m) =
  (children' <- transform_children ch ;;
   match ToIR.rule_callback d with
   | Some f => ToIR.visit d (f m children')
   | None => ret (PTree d children' m)
   end).
Proof. reflexivity. Qed.

Lemma ir_steps_trans (a b c : IR) : ir_steps a b -> ir_steps b c -> ir_steps a c.
Proof.
  intros Hab Hbc. induction Hbc as [|? ? ? _ IH Hst]; [exact Hab|].
  eapply steps_step; [apply IH; exact Hab|exact Hst].
Qed.

Lemma ir_steps_one (a b : IR) : ir_step a b -> ir_steps a b.
Proof. intros H. eapply steps_step; [apply steps_refl|exact H]. Qed.

Lemma by_steps_ret {A} (a : A) : by_steps (ret a).
Proof. intros s r s' [= _ <-]. apply steps_refl. Qed.

Lemma by_steps_raise {A} (e : exn) : by_steps (@raise A e).
Proof. intros s r s' [= _ <-]. apply steps_refl. Qed.

Lemma by_steps_lift {A} (x : exn + A) : by_steps (lift x).
Proof. destruct x; [apply by_steps_raise|apply by_steps_ret]. Qed.

Lemma by_steps_gets {A} (f : IR -> A) : by_steps (gets f).
Proof. intros s r s' [= _ <-]. apply steps_refl. Qed.

Lemma by_steps_bind {A B} (m : M A) (k : A -> M B) :
  by_steps m -> (forall a, by_steps (k a)) -> by_steps (bind m k).
Proof.
  intros Hm Hk s r s'. unfold bind.
  destruct (m s) as [[e|a] s1] eqn:E.
  - intros [= _ <-]. eapply Hm. exact E.
  - intros H. eapply ir_steps_trans; [eapply Hm; exact E|eapply Hk; exact H].
Qed.

Lemma by_steps_visit {A} (rule : string) (m : M A) :
  by_steps m -> by_steps (ToIR.visit rule m).
Proof.
  intros Hm s r s'. unfold ToIR.visit.
  destruct (m s) as [[e|a] s1] eqn:E; intros [= _ <-]; eapply Hm; exact E.
Qed.

Lemma by_steps_modify (f : IR -> IR) :
  (forall s, ir_step s (f s)) -> by_steps (modify f).
Proof. intros Hf s r s' [= _ <-]. apply ir_steps_one, Hf. Qed.

Lemma as_key_inr (v : PyVal) (k : string) : as_key v = inr k -> as_str v = Some k.
Proof.
  unfold as_key. destruct (as_str v); [congruence|].
  destruct (hashable v); discriminate.
Qed.

Lemma subscript_then_raise {A} (loc : PyVal) (e : exn) (s : IR) :
  (lift (ToIR.subscript0 loc) ;;; @raise A e) s = (inl (raised_at loc e), s).
Proof.
  unfold bind, lift, raised_at. destruct (ToIR.subscript0 loc); reflexivity.
Qed.

Lemma add_stmt_by_steps (m : Z * Z) (ch : list PyVal) :
  by_steps (ToIR.add_stmt m ch).
Proof.
  intros s r s'. unfold ToIR.add_stmt.
  repeat match goal with
         | |- context [match ?x with _ => _ end] => destruct x eqn:?
         end;
    try (intros [= _ <-]; apply steps_refl);
    try (rewrite subscript_then_raise; intros [= _ <-]; apply steps_refl).
  unfold bind at 1. unfold lift at 1.
  destruct (as_key _) as [e|oid] eqn:Hk;
    [intros [= _ <-]; apply steps_refl|].
  unfold ret at 1. unfold bind at 1. unfold gets. simpl.
  destruct (dict_mem oid (objects s)) eqn:Hm;
    [rewrite subscript_then_raise; intros [= _ <-]; apply steps_refl|].
  unfold bind, modify, ret. simpl. intros [= _ <-].
  apply ir_steps_one, step_add.
  - exact Hm.
  - apply as_key_inr. exact Hk.
  - match goal with H : negb (truthy _) = false |- _ =>
      apply negb_false_iff in H; exact H end.
Qed.

Lemma last_list_is_list (cs : list PyVal) (acc : PyVal) :
  is_list acc = true ->
  exists l, fold_left (fun acc child => if is_list child then child else acc)
                      cs acc = PList l.
Proof.
  revert acc. induction cs as [|c cs IH]; intros acc Hacc; simpl.
  - destruct acc; try discriminate. eauto.
  - apply IH. destruct (is_list c) eqn:E; assumption.
Qed.

Lemma connect_stmt_by_steps (m : Z * Z) (ch : list PyVal) :
  by_steps (ToIR.connect_stmt m ch).
Proof.
  intros s r s'. unfold ToIR.connect_stmt.
  destruct (last_list_is_list ch (PList []) eq_refl) as [l ->].
  unfold bind, modify, ret. intros [= _ <-].
  apply ir_steps_one, step_connect.
Qed.

Lemma page_stmt_by_steps (m : Z * Z) (c : list PyVal) :
  by_steps (ToIR.page_stmt m c).
Proof.
  unfold ToIR.page_stmt.
  apply by_steps_bind; [apply by_steps_lift|]. intros kvs.
  destruct (match nth_error c 5 with
            | Some v => _
            | None => _
            end) as [kvs' idx].
  apply by_steps_bind; [apply by_steps_lift|]. intros pid.
  apply by_steps_bind; [|intros; apply by_steps_ret].
  apply by_steps_modify. intros s. apply step_page.
Qed.

Lemma rule_table_by_steps :
  Forall (fun kv => forall m ch, by_steps (snd kv m ch)) ToIR.rule_table.
Proof.
  unfold ToIR.rule_table.
  repeat (apply Forall_cons;
          [intros m ch; simpl;
           first [ apply by_steps_lift
                 | apply add_stmt_by_steps
                 | apply connect_stmt_by_steps
                 | apply page_stmt_by_steps ]|]).
  apply Forall_nil.
Qed.

Lemma rule_callback_by_steps (d : string) f :
  ToIR.rule_callback d = Some f -> forall m ch, by_steps (f m ch).
Proof.
  intros H. apply dict_get_In in H.
  pose proof rule_table_by_steps as Ht. rewrite Forall_forall in Ht.
  exact (Ht _ H).
Qed.

Lemma transform_children_by_steps (ch : list Tree) :
  Forall (fun t => by_steps (ToIR.transform t)) ch ->
  by_steps (transform_children ch).
Proof.
  induction 1 as [|c l Hc _ IH]; simpl.
  - apply by_steps_ret.
  - apply by_steps_bind; [exact Hc|]. intros v.
    apply by_steps_bind; [exact IH|]. intros vs. apply by_steps_ret.
Qed.

(** Transforming a tree changes the IR by registrations of new ids,
    appended chain entries and stored pages only. *)
Lemma transform_by_steps (t : Tree) : by_steps (ToIR.transform t).
Proof.
  induction t as [ty v|d ch m IH] using Tree_ind'.
  - simpl. destruct (ToIR.token_callback ty).
    + apply by_steps_visit, by_steps_lift.
    + apply by_steps_ret.
  - rewrite transform_node.
    apply by_steps_bind; [apply transform_children_by_steps; exact IH|].
    intros children'.
    destruct (ToIR.rule_callback d) as [f|] eqn:E.
    + apply by_steps_visit. eapply rule_callback_by_steps. exact E.
    + apply by_steps_ret.
Qed.

(** *** Every registered object carries its id *)

Lemma dict_set_new {V} (k : string) (v : V) (d : dict V) :
  dict_mem k d = false -> dict_set k v d = d ++ [(k, v)].
Proof.
  unfold dict_mem. induction d as [|[k1 v1] d IH]; simpl; [reflexivity|].
  destruct (String.eqb k k1) eqn:E; [discriminate|].
  intros H. rewrite IH by exact H. reflexivity.
Qed.

Lemma truthy_str_nonempty (v : PyVal) (s : string) :
  as_str v = Some s -> truthy v = true -> s <> "".
Proof.
  destruct v; simpl; try discriminate; intros [= ->] H ->; discriminate.
Qed.

Lemma attr_get_truthy (kvs : dict PyVal) (k : string) :
  truthy (attr_get kvs k) = true -> dict_get k kvs = Some (attr_get kvs k).
Proof.
  unfold attr_get. destruct (dict_get k kvs); [reflexivity|discriminate].
Qed.

Lemma ir_step_objects_ok (s s' : IR) :
  ir_step s s' -> objects_ok s -> objects_ok s'.
Proof.
  unfold objects_ok. intros [s0 oid typ kvs loc Hm Hs Ht|s0 l m|s0 pid kvs m] Hok;
    simpl; [|exact Hok|exact Hok].
  rewrite (dict_set_new _ _ _ Hm). apply Forall_app. split; [exact Hok|].
  apply Forall_cons; [|apply Forall_nil]. simpl.
  exists (attr_get kvs "id"). simpl. split; [apply attr_get_truthy; exact Ht|].
  split; [exact Hs|]. split; [|reflexivity].
  eapply truthy_str_nonempty; eassumption.
Qed.

Lemma ir_steps_objects_ok (s s' : IR) :
  ir_steps s s' -> objects_ok s -> objects_ok s'.
Proof.
  induction 1 as [|s1 s2 s3 _ IH Hst]; [tauto|].
  intros H. eapply ir_step_objects_ok; [exact Hst|apply IH; exact H].
Qed.

Lemma run_transformer_steps (tree : Tree) (ir : IR) :
  run_transformer tree = inr ir -> ir_steps IR_new ir.
Proof.
  unfold run_transformer.
  destruct (ToIR.transform tree IR_new) as [[e|v] s] eqn:E; [discriminate|].
  intros [= <-]. eapply transform_by_steps. exact E.
Qed.

Lemma parse_steps _parser_parse (text : string) (ir : IR) :
  parse _parser_parse text = inr ir -> ir_steps IR_new ir.
Proof.
  unfold parse. destruct (_parser_parse text) as [[l c]|tree]; [discriminate|].
  apply run_transformer_steps.
Qed.

(** C10. Every object in the table of an IR returned by [parse] has the
    key "id" in its attributes, with a non-empty value that is its id
    field and the key under which the table holds it. *)
Theorem parsed_objects_carry_id
        (_parser_parse : string -> (option Z * option Z) + Tree)
        (text : string) (ir : IR) (k : string) (o : ObjectIR) :
  parse _parser_parse text = inr ir ->
  In (k, o) (objects ir) ->
  exists v, dict_get "id" (obj_attrs o) = Some v /\
            as_str v = Some (obj_id o) /\
            obj_id o <> "" /\ k = obj_id o.
Proof.
  intros Hp Hin.
  assert (Hok : objects_ok ir).
  { eapply ir_steps_objects_ok; [eapply parse_steps; exact Hp|].
    apply Forall_nil. }
  unfold objects_ok in Hok. rewrite Forall_forall in Hok.
  exact (Hok _ Hin).
Qed.

Lemma c1_parse : parse c1_parser c1_text = inr c1_ir.
Proof. vm_compute. reflexivity. Qed.

Lemma parsed_objects_carry_id_witness :
  parse c1_parser c1_text = inr c1_ir /\
  In ("l1", c1_line) (objects c1_ir) /\
  exists v, dict_get "id" (obj_attrs c1_line) = Some v /\
            as_str v = Some (obj_id c1_line) /\
            obj_id c1_line <> "" /\ "l1" = obj_id c1_line.
Proof.
  assert (Hin : In ("l1", c1_line) (objects c1_ir)) by (simpl; auto).
  split; [exact c1_parse|]. split; [exact Hin|].
  exact (parsed_objects_carry_id c1_parser c1_text c1_ir "l1" c1_line
                                 c1_parse Hin).
Defined.

(** *** Scenario 1, and what [validate] does with a parsed chain *)

Lemma dict_keys_app {V} (d e : dict V) :
  dict_keys (d ++ e) = dict_keys d ++ dict_keys e.
Proof. unfold dict_keys. apply map_app. Qed.

Lemma dict_mem_keys {V} (k : string) (d : dict V) :
  dict_mem k d = false -> ~ In k (dict_keys d).
Proof.
  unfold dict_mem. induction d as [|[k1 v1] d IH]; simpl; [tauto|].
  destruct (String.eqb k k1) eqn:E; [discriminate|].
  apply String.eqb_neq in E. intros H [H1|H1]; [congruence|]. exact (IH H H1).
Qed.

Lemma ir_step_wf (s s' : IR) :
  ir_step s s' ->
  dict_wf (objects s) /\ series_entries s ->
  dict_wf (objects s') /\ series_entries s'.
Proof.
  intros [s0 oid typ kvs loc Hm Hs Ht|s0 l m|s0 pid kvs m] [Hwf Hser];
    simpl; split; try assumption.
  - unfold dict_wf. rewrite (dict_set_new _ _ _ Hm), dict_keys_app. simpl.
    apply NoDup_app_remove_l with (l := []). simpl.
    apply NoDup_Add with (a := oid) (l := dict_keys (objects s0)).
    + rewrite <- (app_nil_r (dict_keys (objects s0))) at 1.
      apply Add_app.
    + split; [exact Hwf|]. apply dict_mem_keys. exact Hm.
  - unfold series_entries. simpl. apply Forall_app. split; [exact Hser|].
    apply Forall_cons; [eauto|apply Forall_nil].
Qed.

Lemma ir_steps_wf (s s' : IR) :
  ir_steps s s' ->
  dict_wf (objects s) /\ series_entries s ->
  dict_wf (objects s') /\ series_entries s'.
Proof.
  induction 1 as [|s1 s2 s3 _ IH Hst]; [tauto|].
  intros H. eapply ir_step_wf; [exact Hst|apply IH; exact H].
Qed.

(** Whatever the grammar, [validate] cannot get past the first chain
    entry of a parsed IR: it takes the entry, a (list, position) pair,
    for a chain, and looks the list up in the object table. *)
Lemma validate_parsed_chain _parser_parse (text : string) (ir : IR) :
  parse _parser_parse text = inr ir ->
  series ir <> [] ->
  validate_result ir = inl TypeError.
Proof.
  intros Hp Hne.
  destruct (ir_steps_wf _ _ (parse_steps _ _ _ Hp)) as [Hwf Hser].
  { split; [constructor|apply Forall_nil]. }
  rewrite validate_result_eq. unfold validate_outcome.
  rewrite (dup_test_wf _ Hwf).
  unfold series_entries in Hser.
  destruct (series ir) as [|c rest]; [congruence|].
  inversion Hser as [|? ? (l & m & ->) _]; subst.
  reflexivity.
Qed.

(** C1. Scenario 1 parses to an IR with two objects and one chain
    entry; [validate] applied to that IR does not succeed: it raises a
    TypeError when it looks up the list of the chain entry in the object
    table. *)
Theorem scenario_bus_line_connect :
  parse c1_parser c1_text = inr c1_ir /\
  dict_len (objects c1_ir) = 2%nat /\
  List.length (series c1_ir) = 1%nat /\
  validate_result c1_ir = inl TypeError.
Proof.
  split; [exact c1_parse|]. split; [reflexivity|]. split; [reflexivity|].
  vm_compute. reflexivity.
Qed.

(** *** Duplicate ids *)

Lemma transform_children_cons (c : Tree) (l : list Tree) (s : IR) :
  transform_children (c :: l) s =
  match ToIR.transform c s with
  | (inl e, s1) => (inl e, s1)
  | (inr v, s1) =>
      match transform_children l s1 with
      | (inl e, s2) => (inl e, s2)
      | (inr vs, s2) => (inr (v :: vs), s2)
      end
  end.
Proof.
  simpl. unfold bind.
  destruct (ToIR.transform c s) as [[e|v] s1]; [reflexivity|].
  destruct (transform_children l s1) as [[e|vs] s2]; reflexivity.
Qed.



Lemma add_stmt_found (m : Z * Z) (children : list PyVal)
      (kind : PyVal) (loc : Z * Z) (typ oid : string) (kvs : dict PyVal)
      (s : IR) :
  ToIR.find_item children
  = Some (PTuple [kind; PStr typ; PDict kvs; loc_of loc]) ->
  attr_get kvs "id" = PStr oid -> oid <> "" ->
  ToIR.add_stmt m children s =
  if dict_mem oid (objects s)
  then (inl (ToIR.Duplicate_id oid), s)
  else (inr PNone,
        ToIR.set_objects (dict_set oid (mkObjectIR oid typ kvs (loc_of loc))) s).
Proof.
  intros Hf Hid Hne. unfold ToIR.add_stmt. rewrite Hf. simpl. rewrite Hid.
  simpl. apply String.eqb_neq in Hne. rewrite Hne. simpl.
  unfold bind, lift, gets, modify, ret, raise. simpl.
  destruct (dict_mem oid (objects s)); reflexivity.
Qed.






(** Every ADD_BUS statement with a proper id and a kv that reads as a
    float is such a statement. *)
Lemma add_bus_tree_statement (oid kv : string) (x : Float64.float)
      (m : Z * Z) :
  oid <> "" ->
  in_strs (PStr oid) ["id="; ","; "kv="; " "] = false ->
  py_float (PToken "NUM" kv) = inr x ->
  add_statement oid (add_bus_tree oid kv m).
Proof.
  intros Hne Hlit Hkv. split; [exact Hne|].
  eexists _, _. split; [reflexivity|]. intros s.
  assert (Hparams :
    ToIR.transform (Node "bus_params" [Tok "ID" oid; SP; Tok "NUM" kv] m) s
    = (inr (PList [PStr oid; PNum x]), s)).
  { rewrite transform_node. unfold bind. simpl transform_children.
    unfold bind, ret, ToIR.visit, lift, ToIR.NUM, ebind. simpl.
    unfold py_float in Hkv.
    destruct (FloatParse.parse (strip is_space kv)) as [x0|]; [|discriminate].
    injection Hkv as ->. unfold raise, ret. simpl.
    unfold ToIR.star, ToIR.bus_params, ToIR.flatten, lift. simpl.
    change (ToIR.tok_value (PToken "ID" oid)) with oid.
    simpl in Hlit. rewrite Hlit. reflexivity. }
  assert (Hbus :
    ToIR.transform
      (Node "add_bus"
         [SP; Node "bus_params" [Tok "ID" oid; SP; Tok "NUM" kv] m] m) s
    = (inr (OBJ "BUS" [("id", PStr oid); ("kv", PNum x)] m), s)).
  { rewrite transform_node. unfold bind.
    rewrite transform_children_cons. simpl ToIR.transform at 1.
    unfold ret at 1. rewrite transform_children_cons, Hparams. simpl.
    reflexivity. }
  exists [OBJ "BUS" [("id", PStr oid); ("kv", PNum x)] m],
         (PStr "OBJ"), "BUS", [("id", PStr oid); ("kv", PNum x)], m.
  split; [|split; reflexivity].
  rewrite transform_children_cons, Hbus. reflexivity.
Qed.




(** The ADD_* rules that index their argument tuple never reach
    [add_stmt]: two ADD_CT statements of one id raise the IndexError of
    the first, not a duplicate-id error. *)
Example two_add_ct_index_error :
  run_transformer two_add_ct = inl (VisitError "add_ct" IndexError) /\
  ~ fails_with_duplicate_id two_add_ct.
Proof.
  assert (E : run_transformer two_add_ct = inl (VisitError "add_ct" IndexError))
    by (vm_compute; reflexivity).
  split; [exact E|].
  intros (e & He & rule & oid & Hd). rewrite E in He.
  injection He as <-. discriminate Hd.
Qed.

(** *** Decimal text read as binary64 *)

Example float_138 :
  py_float (PStr "138") = inr (S754_finite false 4855443348258816 (-45)).
Proof. vm_compute. reflexivity. Qed.

Example float_13_8 :
  py_float (PToken "NUM" "13.8")
  = inr (S754_finite false 7768709357214106 (-49)).
Proof. vm_compute. reflexivity. Qed.

Example float_0_15 :
  Float64.c0_15 = S754_finite false 5404319552844595 (-55).
Proof. vm_compute. reflexivity. Qed.

(** Scenario 4: 92 > 0.15 * 230 = 34.5. *)
Example exceeds_138_230 :
  exceeds_tolerance (Float64.of_Z 138) (Float64.of_Z 230) = true.
Proof. vm_compute. reflexivity. Qed.

(** A difference equal to the threshold passes: 15 = 0.15 * 100. *)
Example exceeds_85_100 :
  exceeds_tolerance (Float64.of_Z 85) (Float64.of_Z 100) = false.
Proof. vm_compute. reflexivity. Qed.

(* ================================================================== *)
(** ** Further properties of the helpers *)

(** *** Dictionaries: keys, order and well-formedness *)

Lemma dict_set_keys {V} (k : string) (v : V) (d : dict V) :
  dict_keys (dict_set k v d) =
  if dict_mem k d then dict_keys d else dict_keys d ++ [k].
Proof.
  unfold dict_mem. induction d as [|[k1 v1] d IH]; simpl; [reflexivity|].
  destruct (String.eqb k k1) eqn:E; simpl; [reflexivity|].
  rewrite IH. destruct (dict_get k d); reflexivity.
Qed.

Lemma dict_set_wf {V} (k : string) (v : V) (d : dict V) :
  dict_wf d -> dict_wf (dict_set k v d).
Proof.
  unfold dict_wf. intros Hwf. rewrite dict_set_keys.
  destruct (dict_mem k d) eqn:Hm; [exact Hwf|].
  apply NoDup_app_remove_l with (l := []). simpl.
  apply NoDup_Add with (a := k) (l := dict_keys d).
  - rewrite <- (app_nil_r (dict_keys d)) at 1. apply Add_app.
  - split; [exact Hwf|apply dict_mem_keys; exact Hm].
Qed.

Lemma dict_update_wf {V} (d e : dict V) : dict_wf d -> dict_wf (dict_update d e).
Proof.
  unfold dict_update. revert d.
  induction e as [|[k v] e IH]; intros d Hwf; simpl; [exact Hwf|].
  apply IH, dict_set_wf, Hwf.
Qed.

Lemma dict_get_app {V} (k : string) (d e : dict V) :
  dict_get k (d ++ e) =
  match dict_get k d with Some v => Some v | None => dict_get k e end.
Proof.
  induction d as [|[k1 v1] d IH]; simpl; [reflexivity|].
  destruct (String.eqb k k1); [reflexivity|exact IH].
Qed.

(** After assigning the items of [e] in order, a key has the value of
    its last item in [e], or its value in [d] when [e] has none. *)
Lemma dict_get_update_last {V} (k : string) (e d : dict V) :
  dict_get k (dict_update d e) =
  match dict_get k (rev e) with
  | Some v => Some v
  | None => dict_get k d
  end.
Proof.
  unfold dict_update. revert d.
  induction e as [|[k1 v1] e IH]; intros d; simpl; [reflexivity|].
  rewrite IH, dict_get_app, dict_get_set. simpl.
  destruct (dict_get k (rev e)); [reflexivity|].
  destruct (String.eqb k k1); reflexivity.
Qed.

Lemma pairs_to_dict_from_update (out : dict PyVal) (l : list (string * PyVal)) :
  _pairs_to_dict_from out (pairs_of l) = inr (dict_update out l).
Proof.
  unfold dict_update. revert out.
  induction l as [|[k v] l IH]; intros out; simpl; [reflexivity|].
  apply IH.
Qed.

(** X1. [_pairs_to_dict] on key/value pairs never fails, builds a dict
    that holds each key once, and gives every key the value of the LAST
    pair that carries it ("later keys override earlier ones"). *)
Theorem pairs_to_dict_last_wins (l : list (string * PyVal)) :
  exists d, _pairs_to_dict (pairs_of l) = inr d /\
            dict_wf d /\
            forall k, dict_get k d = dict_get k (rev l).
Proof.
  exists (dict_update [] l). split; [apply pairs_to_dict_from_update|].
  split; [apply dict_update_wf; constructor|].
  intros k. rewrite dict_get_update_last.
  destruct (dict_get k (rev l)); reflexivity.
Qed.

Lemma dict_mem_set {V} (k k' : string) (v : V) (d : dict V) :
  dict_mem k (dict_set k' v d) = String.eqb k k' || dict_mem k d.
Proof.
  unfold dict_mem. rewrite dict_get_set.
  destruct (String.eqb k k'); reflexivity.
Qed.

Lemma dict_update_keys {V} (m e : dict V) :
  dict_wf m ->
  dict_keys (dict_update e m) =
  dict_keys e ++ filter (not_in_dict e) (dict_keys m).
Proof.
  unfold dict_update, dict_wf. revert e.
  induction m as [|[k v] m IH]; intros e Hwf; simpl.
  - rewrite app_nil_r. reflexivity.
  - inversion Hwf as [|? ? Hnin Hwf']; subst.
    rewrite (IH _ Hwf'), dict_set_keys.
    assert (Hext : filter (not_in_dict (dict_set k v e)) (dict_keys m)
                   = filter (not_in_dict e) (dict_keys m)).
    { apply filter_ext_in. intros k' Hin. unfold not_in_dict.
      rewrite dict_mem_set.
      destruct (String.eqb k' k) eqn:E; [|reflexivity].
      apply String.eqb_eq in E. subst. contradiction. }
    rewrite Hext. unfold not_in_dict at 2.
    destruct (dict_mem k e); simpl; [reflexivity|].
    rewrite <- app_assoc. reflexivity.
Qed.

(** X2. With a non-empty extension map, the merged attribute map lists
    the keys of the extension first, in their order, and after them the
    mandatory keys the extension does not have; it holds each key once. *)
Theorem merge_front_order (kvs_main : dict PyVal) (kv : string * PyVal)
                          (extra : dict PyVal) :
  dict_wf kvs_main -> dict_wf (kv :: extra) ->
  dict_keys (_merge_front kvs_main (Some (kv :: extra))) =
    dict_keys (kv :: extra)
    ++ filter (not_in_dict (kv :: extra)) (dict_keys kvs_main)
  /\ dict_wf (_merge_front kvs_main (Some (kv :: extra))).
Proof.
  intros Hm He. unfold _merge_front. simpl negb. cbv iota. split.
  - apply dict_update_keys. exact Hm.
  - apply dict_update_wf. exact He.
Qed.

Lemma merge_front_order_witness :
  dict_keys (_merge_front [("id", PStr "b1"); ("kv", PInt 138)]
                          (Some [("note", PStr "x"); ("kv", PInt 230)]))
  = ["note"; "kv"; "id"].
Proof.
  assert (Hm : dict_wf [("id", PStr "b1"); ("kv", PInt 138)]).
  { unfold dict_wf. simpl. repeat constructor; simpl; intuition discriminate. }
  assert (He : dict_wf [("note", PStr "x"); ("kv", PInt 230)]).
  { unfold dict_wf. simpl. repeat constructor; simpl; intuition discriminate. }
  rewrite (proj1 (merge_front_order _ ("note", PStr "x") [("kv", PInt 230)]
                                    Hm He)).
  reflexivity.
Defined.

(* ================================================================== *)
(** ** Further properties of the transformer *)

(** *** Registration *)

(** X3. [add_stmt] is all or nothing: when it raises, the IR is as it
    was; when it returns, the table has exactly one more entry, appended
    after the others, under an id that was not in the table, is not empty
    and is the id field of the stored object. *)
Theorem add_stmt_atomic (m : Z * Z) (children : list PyVal)
        (s s' : IR) (r : exn + PyVal) :
  ToIR.add_stmt m children s = (r, s') ->
  (exists e, r = inl e /\ s' = s) \/
  (r = inr PNone /\
   exists oid o,
     dict_mem oid (objects s) = false /\ oid <> "" /\ obj_id o = oid /\
     objects s' = objects s ++ [(oid, o)] /\
     dict_get oid (objects s') = Some o /\
     series s' = series s /\ pages s' = pages s /\
     style s' = style s /\ meta s' = meta s).
Proof.
  unfold ToIR.add_stmt.
  repeat match goal with
         | |- context [match ?x with _ => _ end] => destruct x eqn:?
         end;
    try (intros [= <- <-]; left; eexists; split; reflexivity);
    try (rewrite subscript_then_raise; intros [= <- <-];
         left; eexists; split; reflexivity).
  unfold bind at 1. unfold lift at 1.
  destruct (as_key _) as [e|oid] eqn:Hk;
    [intros [= <- <-]; left; eexists; split; reflexivity|].
  unfold ret at 1. unfold bind at 1. unfold gets. simpl.
  destruct (dict_mem oid (objects s)) eqn:Hm;
    [rewrite subscript_then_raise; intros [= <- <-];
     left; eexists; split; reflexivity|].
  unfold bind, modify, ret. simpl. intros [= <- <-].
  right. split; [reflexivity|].
  match goal with
  | |- context [dict_set oid ?o] => exists oid, o
  end.
  split; [exact Hm|].
  split.
  { eapply truthy_str_nonempty; [apply as_key_inr; exact Hk|].
    match goal with H : negb (truthy _) = false |- _ =>
      apply negb_false_iff in H; exact H end. }
  split; [reflexivity|]. simpl.
  split; [apply dict_set_new; exact Hm|].
  split; [rewrite dict_get_set, String.eqb_refl; reflexivity|].
  repeat split.
Qed.

Lemma add_stmt_atomic_witness :
  exists o,
    dict_get "b1" (objects (snd (ToIR.add_stmt (1%Z, 1%Z)
       [PList [OBJ "BUS" [("id", PStr "b1")] (1%Z, 1%Z)]] IR_new))) = Some o.
Proof.
  destruct (add_stmt_atomic (1%Z, 1%Z)
              [PList [OBJ "BUS" [("id", PStr "b1")] (1%Z, 1%Z)]]
              IR_new _ _ eq_refl) as [(e & He & _)|(_ & oid & o & H)].
  - discriminate He.
  - exists (mkObjectIR "b1" "BUS" [("id", PStr "b1")] (loc_of (1%Z, 1%Z))).
    reflexivity.
Defined.

(** X4. An [add_stmt] that finds the tuple of an ADD_* rule whose "id"
    attribute is absent, None or empty raises and leaves the IR as it
    was.  The message of its "Missing id" error reads [loc[0]]: with the
    position [(line, column)] that every ADD_* rule puts in its tuple the
    error is "Missing id"; with a [loc] that has no item 0 (None, a
    number, an empty sequence) the exception of that subscript is raised
    instead. *)
Theorem add_stmt_missing_id (m : Z * Z) (children : list PyVal)
        (kind loc : PyVal) (typ : string) (kvs : dict PyVal) (s : IR) :
  ToIR.find_item children = Some (PTuple [kind; PStr typ; PDict kvs; loc]) ->
  truthy (attr_get kvs "id") = false ->
  ToIR.add_stmt m children s
  = (inl (match ToIR.subscript0 loc with
          | inr _ => ToIR.Missing_id typ
          | inl e => e
          end), s) /\
  (forall pos, loc = loc_of pos ->
     ToIR.add_stmt m children s = (inl (ToIR.Missing_id typ), s)).
Proof.
  intros Hf Ht.
  assert (Hrun : ToIR.add_stmt m children s
                 = (inl (raised_at loc (ToIR.Missing_id typ)), s)).
  { unfold ToIR.add_stmt. rewrite Hf. simpl. rewrite Ht. simpl.
    apply subscript_then_raise. }
  split; [exact Hrun|].
  intros pos ->. rewrite Hrun. reflexivity.
Qed.

Lemma add_stmt_missing_id_witness :
  ToIR.add_stmt (1%Z, 1%Z) [PList [OBJ "BUS" [("kv", PInt 138)] (1%Z, 1%Z)]]
                IR_new
  = (inl (ToIR.Missing_id "BUS"), IR_new) /\
  ToIR.add_stmt (1%Z, 1%Z)
                [PList [PTuple [PStr "OBJ"; PStr "BUS";
                                PDict [("kv", PInt 138)]; PNone]]]
                IR_new
  = (inl TypeError, IR_new).
Proof.
  split.
  - exact (proj2 (add_stmt_missing_id (1%Z, 1%Z)
             [PList [OBJ "BUS" [("kv", PInt 138)] (1%Z, 1%Z)]]
             (PStr "OBJ") (loc_of (1%Z, 1%Z)) "BUS" [("kv", PInt 138)] IR_new
             eq_refl eq_refl) (1%Z, 1%Z) eq_refl).
  - exact (proj1 (add_stmt_missing_id (1%Z, 1%Z)
             [PList [PTuple [PStr "OBJ"; PStr "BUS";
                             PDict [("kv", PInt 138)]; PNone]]]
             (PStr "OBJ") PNone "BUS" [("kv", PInt 138)] IR_new
             eq_refl eq_refl)).
Defined.

(** *** The transformation only appends *)

Lemma grows_refl (s : IR) : grows s s.
Proof.
  repeat split; try (exists []; rewrite app_nil_r; reflexivity).
Qed.

Lemma grows_trans (a b c : IR) : grows a b -> grows b c -> grows a c.
Proof.
  intros ([lo1 Ho1] & [ls1 Hs1] & Hst1 & Hm1) ([lo2 Ho2] & [ls2 Hs2] & Hst2 & Hm2).
  split; [|split; [|split]].
  - exists (lo1 ++ lo2). rewrite Ho2, Ho1, app_assoc. reflexivity.
  - exists (ls1 ++ ls2). rewrite Hs2, Hs1, app_assoc. reflexivity.
  - congruence.
  - congruence.
Qed.

Lemma ir_step_grows (s s' : IR) : ir_step s s' -> grows s s'.
Proof.
  intros [s0 oid typ kvs loc Hm Hs Ht|s0 l m|s0 pid kvs m]; simpl.
  - split; [|split; [|split]]; simpl; try reflexivity.
    + eexists. apply dict_set_new. exact Hm.
    + exists []. rewrite app_nil_r. reflexivity.
  - split; [|split; [|split]]; simpl; try reflexivity.
    + exists []. rewrite app_nil_r. reflexivity.
    + eexists. reflexivity.
  - split; [|split; [|split]]; simpl; try reflexivity;
      exists []; rewrite app_nil_r; reflexivity.
Qed.

Lemma ir_steps_grows (s s' : IR) : ir_steps s s' -> grows s s'.
Proof.
  induction 1 as [|s1 s2 s3 _ IH Hst]; [apply grows_refl|].
  eapply grows_trans; [exact IH|apply ir_step_grows; exact Hst].
Qed.

(** X5. Transforming a tree, whether it ends normally or with an
    exception, never removes, reorders or replaces an object or a chain
    entry: the object table and the chain list before are prefixes of
    those after, and the style and meta maps are untouched. *)
Theorem transform_only_appends (t : Tree) (s s' : IR) (r : exn + PyVal) :
  ToIR.transform t s = (r, s') ->
  (exists lo, objects s' = objects s ++ lo) /\
  (exists ls, series s' = series s ++ ls) /\
  style s' = style s /\ meta s' = meta s.
Proof.
  intros H. apply (ir_steps_grows s s'). eapply transform_by_steps. exact H.
Qed.

Lemma transform_only_appends_witness :
  exists lo, objects c1_ir = objects (mkIR [("b1", c1_bus)] [] [] [] []) ++ lo.
Proof.
  exact (proj1 (transform_only_appends
                  (Node "script" [add_line_l1 2; connect_b1_l1 3] (1%Z, 1%Z))
                  (mkIR [("b1", c1_bus)] [] [] [] []) c1_ir
                  (inr (PTree "script" [PNone; PNone] (1%Z, 1%Z)))
                  eq_refl)).
Defined.

(** X6. The object table of an IR returned by [parse] is a dict that
    holds each id once, and every entry of its chain list is the pair of
    a list and the position of the CONNECT statement. *)
Theorem parsed_ir_shape
        (_parser_parse : string -> (option Z * option Z) + Tree)
        (text : string) (ir : IR) :
  parse _parser_parse text = inr ir ->
  dict_wf (objects ir) /\
  Forall (fun c => exists l m, c = PTuple [PList l; loc_of m]) (series ir).
Proof.
  intros Hp. apply (ir_steps_wf IR_new ir (parse_steps _ _ _ Hp)).
  split; [constructor|apply Forall_nil].
Qed.

Lemma parsed_ir_shape_witness :
  dict_wf (objects c1_ir).
Proof.
  exact (proj1 (parsed_ir_shape c1_parser c1_text c1_ir c1_parse)).
Defined.

(** *** Rules that read their children by position *)

(** X7. Under lark's calling convention the methods that index their
    argument tuple ([c[0]], [c[1]], ...) receive one argument, the list of
    children, so [c[1]] is out of range: whatever the children, as soon as
    they are transformed the rule raises IndexError (wrapped in a
    VisitError) and the IR stays as the children left it.  No such
    ADD_* statement ever registers an object, no PAGE is ever stored. *)
Theorem indexed_rules_raise (rule : string) (ch : list Tree) (m : Z * Z)
        (s s1 : IR) (vs : list PyVal) :
  In rule indexed_rules ->
  transform_children ch s = (inr vs, s1) ->
  ToIR.transform (Node rule ch m) s = (inl (VisitError rule IndexError), s1).
Proof.
  intros Hin Hch. rewrite transform_node. unfold bind. rewrite Hch.
  unfold indexed_rules in Hin. simpl in Hin.
  repeat (destruct Hin as [<-|Hin]; [reflexivity|]).
  destruct Hin.
Qed.

Lemma indexed_rules_raise_witness :
  run_transformer add_ct_ct1 = inl (VisitError "add_ct" IndexError).
Proof.
  unfold run_transformer, add_ct_ct1.
  rewrite (indexed_rules_raise "add_ct" [Tok "ID" "ct1"; SP; Tok "NUM" "138"]
             (1%Z, 1%Z) IR_new IR_new
             [PStr "ct1"; PToken "SP" " "; PNum (Float64.of_Z 138)]).
  - reflexivity.
  - simpl. auto 10.
  - vm_compute. reflexivity.
Defined.

(** *** ADD_* rules that search for their parameter list *)

Lemma zip_keys {A B} (ks : list A) (vs : list B) :
  List.length vs = List.length ks -> map fst (zip ks vs) = ks.
Proof.
  revert vs. induction ks as [|k ks IH]; intros [|v vs]; simpl; try discriminate.
  - reflexivity.
  - intros [= H]. rewrite (IH _ H). reflexivity.
Qed.

Lemma find_params_single (n : nat) (ch : list PyVal) :
  ToIR.find_params n [PList ch] None None
  = (find (ToIR.looks_like_params n) ch, None).
Proof. simpl. destruct (find _ ch); reflexivity. Qed.

Lemma looks_like_params_length (n : nat) (v : PyVal) :
  ToIR.looks_like_params n v = true ->
  exists vals, v = PList vals /\ List.length vals = n.
Proof.
  destruct v; simpl; try discriminate.
  intros H. apply andb_true_iff in H. destruct H as [H _].
  apply Nat.eqb_eq in H. eauto.
Qed.

Lemma add_with_params_keys (name typ : string) (keys : list string)
      (m : Z * Z) (ch : list PyVal) (v : PyVal) :
  NoDup keys ->
  ToIR.add_with_params name typ keys m [PList ch] = inr v ->
  exists kvs, v = OBJ typ kvs m /\ dict_keys kvs = keys.
Proof.
  intros Hnd. unfold ToIR.add_with_params. rewrite find_params_single.
  destruct (find _ ch) as [sub|] eqn:Hf; [|discriminate].
  apply find_some in Hf. destruct Hf as [_ Hl].
  apply looks_like_params_length in Hl. destruct Hl as (vals & -> & Hlen).
  intros [= <-]. eexists. split; [reflexivity|].
  change (fold_left (fun acc kv => dict_set (fst kv) (snd kv) acc)
                    (zip keys vals) [])
    with (dict_update [] (zip keys vals)).
  rewrite dict_update_keys.
  - simpl. unfold dict_keys at 1. rewrite (zip_keys keys vals Hlen).
    apply forallb_filter_id. apply forallb_forall. reflexivity.
  - unfold dict_wf, dict_keys. rewrite (zip_keys keys vals Hlen). exact Hnd.
Qed.

(** X8. The seven ADD_* methods that search their children (BUS, BAY,
    COUPLER, BREAKER, DISCONNECTOR, TRANSFORMER, LINE), called as lark
    calls them, either raise or emit an object of their kind whose
    attributes are exactly the mandatory keys, in the declared order: the
    one argument they receive is a list, so the branch that would pick up
    an extension dict is never taken and no extension key is merged. *)
Theorem scanning_adders_mandatory_keys
        (f : Z * Z -> list PyVal -> exn + PyVal) (typ : string)
        (keys : list string) (m : Z * Z) (ch : list PyVal) (v : PyVal) :
  In (f, typ, keys) scanning_adders ->
  f m [PList ch] = inr v ->
  exists kvs, v = OBJ typ kvs m /\ dict_keys kvs = keys.
Proof.
  intros Hin. unfold scanning_adders in Hin. simpl in Hin.
  repeat (destruct Hin as [[= <- <- <-]|Hin];
          [apply add_with_params_keys;
           repeat constructor; simpl; intuition discriminate|]).
  destruct Hin.
Qed.

Lemma scanning_adders_mandatory_keys_witness :
  exists kvs,
    OBJ "BUS" [("id", PStr "b1"); ("kv", PInt 138)] (1%Z, 1%Z)
    = OBJ "BUS" kvs (1%Z, 1%Z) /\ dict_keys kvs = ["id"; "kv"].
Proof.
  refine (scanning_adders_mandatory_keys ToIR.add_bus "BUS" ["id"; "kv"]
            (1%Z, 1%Z)
            [PList [PStr "b1"; PInt 138]; PDict [("note", PStr "x")]]
            _ _ _).
  - simpl. auto.
  - reflexivity.
Defined.

(** *** Exceptions of the transformation *)

Lemma only_visit_errors_ret {A} (a : A) : only_visit_errors (ret a).
Proof. intros s e s' H. discriminate H. Qed.

Lemma only_visit_errors_visit {A} (rule : string) (m : M A) :
  only_visit_errors (ToIR.visit rule m).
Proof.
  intros s e s'. unfold ToIR.visit.
  destruct (m s) as [[e0|a] s0]; intros [= <- _]; eauto.
Qed.

Lemma only_visit_errors_bind {A B} (m : M A) (k : A -> M B) :
  only_visit_errors m -> (forall a, only_visit_errors (k a)) ->
  only_visit_errors (bind m k).
Proof.
  intros Hm Hk s e s'. unfold bind.
  destruct (m s) as [[e0|a] s0] eqn:E.
  - intros [= <- <-]. eapply Hm. exact E.
  - intros H. eapply Hk. exact H.
Qed.

Lemma transform_children_visit_errors (ch : list Tree) :
  Forall (fun t => only_visit_errors (ToIR.transform t)) ch ->
  only_visit_errors (transform_children ch).
Proof.
  induction 1 as [|c l Hc _ IH]; simpl.
  - apply only_visit_errors_ret.
  - apply only_visit_errors_bind; [exact Hc|]. intros v.
    apply only_visit_errors_bind; [exact IH|]. intros vs.
    apply only_visit_errors_ret.
Qed.

Lemma transform_visit_errors (t : Tree) : only_visit_errors (ToIR.transform t).
Proof.
  induction t as [ty v|d ch m IH] using Tree_ind'.
  - simpl. destruct (ToIR.token_callback ty).
    + apply only_visit_errors_visit.
    + apply only_visit_errors_ret.
  - rewrite transform_node.
    apply only_visit_errors_bind;
      [apply transform_children_visit_errors; exact IH|].
    intros children'. destruct (ToIR.rule_callback d).
    + apply only_visit_errors_visit.
    + apply only_visit_errors_ret.
Qed.

(** X9. [parse] raises ParseError exactly when the grammar front end
    rejects the text, with the line and column it reports; every other
    exception of [parse] comes from a method of the transformer and
    reaches the caller wrapped in lark's VisitError (the ValueError of a
    missing or duplicate id is never raised bare). *)
Theorem parse_errors
        (_parser_parse : string -> (option Z * option Z) + Tree)
        (text : string) :
  (forall line column,
     parse _parser_parse text = inl (ParseError line column) <->
     _parser_parse text = inl (line, column)) /\
  (forall e, parse _parser_parse text = inl e ->
     (exists line column, e = ParseError line column) \/
     (exists rule orig, e = VisitError rule orig)).
Proof.
  unfold parse, run_transformer.
  destruct (_parser_parse text) as [[l c]|tree].
  - split.
    + intros line column. split; intros [= <- <-]; reflexivity.
    + intros e [= <-]. left. eauto.
  - destruct (ToIR.transform tree IR_new) as [[e0|v] s] eqn:E.
    + destruct (transform_visit_errors tree _ _ _ E) as (rule & orig & ->).
      split.
      * intros line column. split; discriminate.
      * intros e [= <-]. right. eauto.
    + split.
      * intros line column. split; discriminate.
      * intros e H. discriminate H.
Qed.

(** *** Pages, style and meta *)

Lemma same_psm_refl (s : IR) : same_pages_style_meta s s.
Proof. repeat split. Qed.

Lemma same_psm_trans (a b c : IR) :
  same_pages_style_meta a b -> same_pages_style_meta b c ->
  same_pages_style_meta a c.
Proof. unfold same_pages_style_meta. intuition congruence. Qed.

Lemma respects_psm_lift {A} (x : exn + A) :
  respects same_pages_style_meta (lift x).
Proof. intros s r s'. destruct x; intros [= _ <-]; apply same_psm_refl. Qed.

Lemma respects_psm_ret {A} (a : A) : respects same_pages_style_meta (ret a).
Proof. intros s r s' [= _ <-]. apply same_psm_refl. Qed.

Lemma respects_psm_bind {A B} (m : M A) (k : A -> M B) :
  respects same_pages_style_meta m ->
  (forall a, respects same_pages_style_meta (k a)) ->
  respects same_pages_style_meta (bind m k).
Proof.
  intros Hm Hk s r s'. unfold bind.
  destruct (m s) as [[e|a] s1] eqn:E.
  - intros [= _ <-]. eapply Hm. exact E.
  - intros H. eapply same_psm_trans; [eapply Hm; exact E|eapply Hk; exact H].
Qed.

Lemma respects_psm_visit {A} (rule : string) (m : M A) :
  respects same_pages_style_meta m ->
  respects same_pages_style_meta (ToIR.visit rule m).
Proof.
  intros Hm s r s'. unfold ToIR.visit.
  destruct (m s) as [[e|a] s1] eqn:E; intros [= _ <-]; eapply Hm; exact E.
Qed.

Lemma respects_psm_add_stmt (m : Z * Z) (ch : list PyVal) :
  respects same_pages_style_meta (ToIR.add_stmt m ch).
Proof.
  intros s r s'. unfold ToIR.add_stmt.
  repeat match goal with
         | |- context [match ?x with _ => _ end] => destruct x eqn:?
         end;
    try (intros [= _ <-]; apply same_psm_refl);
    try (rewrite subscript_then_raise; intros [= _ <-]; apply same_psm_refl).
  unfold bind at 1. unfold lift at 1.
  destruct (as_key _) as [e|oid]; [intros [= _ <-]; apply same_psm_refl|].
  unfold ret at 1. unfold bind at 1. unfold gets. simpl.
  destruct (dict_mem oid (objects s));
    [rewrite subscript_then_raise; intros [= _ <-]; apply same_psm_refl|].
  unfold bind, modify, ret. simpl.
  intros [= _ <-]; repeat split.
Qed.

Lemma respects_psm_connect_stmt (m : Z * Z) (ch : list PyVal) :
  respects same_pages_style_meta (ToIR.connect_stmt m ch).
Proof.
  intros s r s'. unfold ToIR.connect_stmt, bind, modify, ret.
  intros [= _ <-]. repeat split.
Qed.

Lemma respects_psm_page_stmt (m : Z * Z) (ch : list PyVal) :
  respects same_pages_style_meta (ToIR.starM ToIR.page_stmt m ch).
Proof. intros s r s' [= _ <-]. apply same_psm_refl. Qed.

Lemma rule_table_psm :
  Forall (fun kv => forall m ch, respects same_pages_style_meta (snd kv m ch))
         ToIR.rule_table.
Proof.
  unfold ToIR.rule_table.
  repeat (apply Forall_cons;
          [intros m ch; simpl;
           first [ apply respects_psm_lift
                 | apply respects_psm_add_stmt
                 | apply respects_psm_connect_stmt
                 | apply respects_psm_page_stmt ]|]).
  apply Forall_nil.
Qed.

Lemma transform_children_psm (ch : list Tree) :
  Forall (fun t => respects same_pages_style_meta (ToIR.transform t)) ch ->
  respects same_pages_style_meta (transform_children ch).
Proof.
  induction 1 as [|c l Hc _ IH]; simpl.
  - apply respects_psm_ret.
  - apply respects_psm_bind; [exact Hc|]. intros v.
    apply respects_psm_bind; [exact IH|]. intros vs. apply respects_psm_ret.
Qed.

Lemma transform_psm (t : Tree) :
  respects same_pages_style_meta (ToIR.transform t).
Proof.
  induction t as [ty v|d ch m IH] using Tree_ind'.
  - simpl. destruct (ToIR.token_callback ty).
    + apply respects_psm_visit, respects_psm_lift.
    + apply respects_psm_ret.
  - rewrite transform_node.
    apply respects_psm_bind; [apply transform_children_psm; exact IH|].
    intros children'. destruct (ToIR.rule_callback d) as [f|] eqn:E.
    + apply respects_psm_visit.
      apply dict_get_In in E.
      pose proof rule_table_psm as Ht. rewrite Forall_forall in Ht.
      exact (Ht _ E m children').
    + apply respects_psm_ret.
Qed.

(** X10. An IR returned by [parse] has an empty page table and empty
    style and meta maps, whatever the text: STYLE, LABEL and SET_LAYOUT
    store nothing, and [page_stmt] raises before it stores its page. *)
Theorem parsed_ir_no_pages
        (_parser_parse : string -> (option Z * option Z) + Tree)
        (text : string) (ir : IR) :
  parse _parser_parse text = inr ir ->
  pages ir = [] /\ style ir = [] /\ meta ir = [].
Proof.
  unfold parse, run_transformer.
  destruct (_parser_parse text) as [[l c]|tree]; [discriminate|].
  destruct (ToIR.transform tree IR_new) as [[e|v] s] eqn:E; [discriminate|].
  intros [= <-]. exact (transform_psm tree _ _ _ E).
Qed.

Lemma parsed_ir_no_pages_witness :
  pages c1_ir = [] /\ style c1_ir = [] /\ meta c1_ir = [].
Proof. exact (parsed_ir_no_pages c1_parser c1_text c1_ir c1_parse). Defined.

(* ================================================================== *)
(** ** Further properties of the validator *)

Lemma check_chain_empty objs chain :
  check_chain objs chain = inl E_CONNECT_EMPTY <-> truthy chain = false.
Proof.
  split.
  - intros H. destruct (truthy chain) eqn:Ht; [|reflexivity].
    unfold check_chain in H. rewrite Ht in H. simpl in H.
    destruct (py_iter chain) as [items|]; [|discriminate].
    destruct (first_error (check_endpoint _) _) as [e|[]] eqn:E1.
    + apply first_error_in in E1. destruct E1 as (x & _ & Hx).
      apply check_endpoint_error in Hx. subst e. discriminate H.
    + destruct (py_tail chain); [|discriminate].
      apply first_error_in in H. destruct H as (x & _ & Hx).
      apply check_pair_error in Hx. destruct Hx as [Hx|[Hx|Hx]]; discriminate.
  - intros Ht. unfold check_chain. rewrite Ht. reflexivity.
Qed.

(** X11. On an IR whose object table is a dict, [validate] raises
    E.CONNECT.EMPTY exactly when some entry of the chain list is empty
    (falsy) and every chain before it passes all its rules. *)
Theorem validate_empty_iff (ir : IR) :
  dict_wf (objects ir) ->
  (validate_result ir = inl E_CONNECT_EMPTY <->
   exists pre chain post,
     series ir = pre ++ chain :: post /\
     Forall (chain_passes (objects ir)) pre /\
     truthy chain = false).
Proof.
  intros Hwf. rewrite validate_result_eq. unfold validate_outcome.
  rewrite (dup_test_wf _ Hwf). split.
  - destruct (first_error _ _) as [e|[]] eqn:E.
    + intros [= ->]. apply first_error_raises in E.
      destruct E as (pre & c & post & Hs & Hpre & Hc).
      exists pre, c, post. split; [exact Hs|]. split; [exact Hpre|].
      apply (check_chain_empty (objects ir)). exact Hc.
    + intros H. apply check_breakers_error in H. destruct H; discriminate.
  - intros (pre & c & post & Hs & Hpre & Hc).
    apply (check_chain_empty (objects ir)) in Hc.
    assert (E : first_error (check_chain (objects ir)) (series ir)
                = inl E_CONNECT_EMPTY).
    { apply first_error_raises. exists pre, c, post. auto. }
    rewrite E. reflexivity.
Qed.

Lemma validate_empty_iff_witness :
  validate_result ir_empty_then_interior = inl E_CONNECT_EMPTY.
Proof.
  assert (Hwf : dict_wf (objects ir_empty_then_interior)) by constructor.
  apply (proj2 (validate_empty_iff ir_empty_then_interior Hwf)).
  exists [], (PList []), [PList [PStr "brk1"; open_end; PStr "bus1"]].
  split; [reflexivity|]. split; [constructor|reflexivity].
Defined.

(** X12. On an IR whose object table is a dict, [validate] returns
    normally exactly when every chain passes its rules and every BREAKER
    of the table is a plain-identifier element of some chain. *)
Theorem validate_succeeds_iff (ir : IR) :
  dict_wf (objects ir) ->
  (validate_result ir = inr tt <->
   Forall (chain_passes (objects ir)) (series ir) /\ breakers_connected ir).
Proof.
  intros Hwf. rewrite validate_result_eq. unfold validate_outcome.
  rewrite (dup_test_wf _ Hwf). split.
  - destruct (first_error _ _) as [e|[]] eqn:E; [discriminate|].
    apply first_error_ok in E. intros H. split; [exact E|].
    assert (Hit : Forall (fun c => exists items, py_iter c = Some items)
                         (series ir)).
    { eapply Forall_impl; [|exact E].
      intros c Hc. eapply check_chain_iterable. exact Hc. }
    destruct (in_series_spec _ Hit) as (used & Hu & Hspec).
    unfold check_breakers in H. rewrite Hu in H.
    intros oid o Hin Ht. apply Hspec.
    rewrite first_error_ok, Forall_forall in H.
    assert (Hb : In oid (breakers (objects ir))) by (apply breakers_In; eauto).
    specialize (H oid Hb). simpl in H.
    destruct (mem_str oid used) eqn:Hm; [|discriminate].
    apply mem_str_In. exact Hm.
  - intros [Hch Hbrk].
    rewrite (proj2 (first_error_ok _ _) Hch).
    assert (Hit : Forall (fun c => exists items, py_iter c = Some items)
                         (series ir)).
    { eapply Forall_impl; [|exact Hch].
      intros c Hc. eapply check_chain_iterable. exact Hc. }
    destruct (in_series_spec _ Hit) as (used & Hu & Hspec).
    unfold check_breakers. rewrite Hu.
    apply first_error_ok, Forall_forall. intros oid Hb.
    apply breakers_In in Hb. destruct Hb as (o & Hin & Ht).
    rewrite (proj2 (mem_str_In oid used)); [reflexivity|].
    apply Hspec. exact (Hbrk oid o Hin Ht).
Qed.

(** X13. On an IR none of whose chains is a dict, [validate] raises
    nothing but its five validation errors, a TypeError (an element that
    cannot be hashed, a chain that cannot be iterated, a kv that is not a
    number) or an OverflowError (an integer kv beyond the float range).
    A chain that is a dict is left out: what its slice [chain[1:]] raises
    depends on the version of Python. *)
Theorem validate_raises_only (ir : IR) (e : exn) :
  Forall (fun chain => is_dict chain = false) (series ir) ->
  validate_result ir = inl e ->
  e = E_ID_DUP \/ e = E_CONNECT_EMPTY \/ e = E_CONNECT_ENDPOINT \/
  e = E_VOLT_MISMATCH \/ e = E_PROT_BRK_UNUSED \/
  e = TypeError \/ e = PyExc "OverflowError" "".
Proof.
  intros _. rewrite validate_result_eq. unfold validate_outcome.
  destruct (negb _); [intros [= <-]; auto|].
  destruct (first_error _ _) as [e'|[]] eqn:E.
  - intros [= <-]. apply first_error_in in E. destruct E as (c & _ & Hc).
    apply check_chain_error in Hc. unfold chain_error in Hc. tauto.
  - intros H. apply check_breakers_error in H. tauto.
Qed.

Lemma validate_raises_only_witness :
  Forall (fun chain => is_dict chain = false) (series ir_empty_then_interior) /\
  validate_result ir_empty_then_interior = inl E_CONNECT_EMPTY /\
  (E_CONNECT_EMPTY = E_ID_DUP \/ E_CONNECT_EMPTY = E_CONNECT_EMPTY \/
   E_CONNECT_EMPTY = E_CONNECT_ENDPOINT \/ E_CONNECT_EMPTY = E_VOLT_MISMATCH \/
   E_CONNECT_EMPTY = E_PROT_BRK_UNUSED \/ E_CONNECT_EMPTY = TypeError \/
   E_CONNECT_EMPTY = PyExc "OverflowError" "").
Proof.
  assert (Hd : Forall (fun chain => is_dict chain = false)
                      (series ir_empty_then_interior)).
  { apply Forall_cons; [reflexivity|].
    apply Forall_cons; [reflexivity|apply Forall_nil]. }
  split; [exact Hd|]. split; [reflexivity|].
  exact (validate_raises_only ir_empty_then_interior E_CONNECT_EMPTY Hd eq_refl).
Defined.

Lemma validate_succeeds_iff_witness :
  dict_wf (objects ir_undeclared) /\ validate_result ir_undeclared = inr tt.
Proof.
  assert (Hwf : dict_wf (objects ir_undeclared)).
  { unfold dict_wf. simpl. repeat constructor; simpl; intuition discriminate. }
  split; [exact Hwf|].
  apply (proj2 (validate_succeeds_iff ir_undeclared Hwf)). split.
  - apply Forall_cons; [reflexivity|].
    apply Forall_cons; [reflexivity|apply Forall_nil].
  - intros oid o Hin Ht. simpl in Hin. destruct Hin as [[= <- <-]|[]].
    discriminate Ht.
Defined.

(** *** Undeclared identifiers and chains of Terminals *)

Lemma in_zip {A B} (l : list A) (l' : list B) (a : A) (b : B) :
  In (a, b) (zip l l') -> In a l /\ In b l'.
Proof.
  revert l'. induction l as [|x l IH]; intros [|y l']; simpl; try tauto.
  intros [[= <- <-]|H]; [auto|]. destruct (IH _ H). auto.
Qed.

Lemma undeclared_pair_passes objs a b sa sb :
  as_str a = Some sa -> dict_get sa objs = None ->
  as_str b = Some sb ->
  check_pair objs (a, b) = inr tt.
Proof.
  intros Ha Hna Hb.
  assert (Hda : is_dict a = false) by (destruct a; simpl in *; congruence).
  assert (Hdb : is_dict b = false) by (destruct b; simpl in *; congruence).
  assert (Hha : hashable a = true) by (destruct a; simpl in *; congruence).
  assert (Hhb : hashable b = true) by (destruct b; simpl in *; congruence).
  unfold check_pair, objects_get. rewrite Hda, Hdb, Hha, Hhb, Ha, Hb, Hna.
  simpl. destruct (dict_get sb objs); reflexivity.
Qed.

Lemma undeclared_chain_passes objs chain :
  undeclared_chain objs chain -> check_chain objs chain = inr tt.
Proof.
  intros (items & -> & Hne & Hall). unfold check_chain.
  assert (Ht : truthy (PList items) = true)
    by (destruct items; [congruence|reflexivity]).
  rewrite Ht. simpl.
  assert (E1 : first_error (check_endpoint (List.length items))
                           (enumerate items) = inr tt).
  { apply first_error_ok, Forall_forall. intros [i v] Hin.
    apply in_enumerate, nth_error_In in Hin.
    destruct (Hall v Hin) as (s & Hs & _). unfold check_endpoint.
    destruct v; simpl in *; try discriminate; reflexivity. }
  rewrite E1. apply first_error_ok, Forall_forall. intros [a b] Hin.
  apply in_zip in Hin. destruct Hin as [Ha Hb].
  assert (Hb' : In b items) by (destruct items; [destruct Hb|right; exact Hb]).
  destruct (Hall a Ha) as (sa & Hsa & Hna).
  destruct (Hall b Hb') as (sb & Hsb & _).
  eapply undeclared_pair_passes; eassumption.
Qed.

(** X14. Identifiers that name no object are never reported: an IR
    whose object table is a dict without BREAKER objects and whose chains
    are non-empty lists of identifiers absent from the table passes
    [validate]. *)
Theorem validate_accepts_undeclared (ir : IR) :
  dict_wf (objects ir) ->
  (forall oid o, In (oid, o) (objects ir) -> obj_type o <> "BREAKER") ->
  Forall (undeclared_chain (objects ir)) (series ir) ->
  validate_result ir = inr tt.
Proof.
  intros Hwf Hnb Hch. rewrite validate_result_eq. unfold validate_outcome.
  rewrite (dup_test_wf _ Hwf).
  assert (Hpass : Forall (fun c => check_chain (objects ir) c = inr tt)
                         (series ir)).
  { eapply Forall_impl; [|exact Hch]. apply undeclared_chain_passes. }
  rewrite (proj2 (first_error_ok _ _) Hpass).
  assert (Hit : Forall (fun c => exists items, py_iter c = Some items)
                       (series ir)).
  { eapply Forall_impl; [|exact Hpass].
    intros c Hc. eapply check_chain_iterable. exact Hc. }
  destruct (in_series_spec _ Hit) as (used & Hu & _).
  unfold check_breakers. rewrite Hu.
  apply first_error_ok, Forall_forall. intros oid Hb.
  apply breakers_In in Hb. destruct Hb as (o & Hin & Ht).
  exfalso. exact (Hnb oid o Hin Ht).
Qed.

Lemma validate_accepts_undeclared_witness :
  validate_result ir_undeclared = inr tt.
Proof.
  apply validate_accepts_undeclared.
  - unfold dict_wf. simpl. repeat constructor; simpl; intuition discriminate.
  - intros oid o Hin. simpl in Hin. destruct Hin as [[= <- <-]|[]].
    discriminate.
  - apply Forall_cons; [|apply Forall_cons; [|apply Forall_nil]].
    + exists [PStr "ghost1"; PStr "ghost2"].
      split; [reflexivity|]. split; [discriminate|].
      intros v [<-|[<-|[]]]; eexists; split; reflexivity.
    + exists [PStr "ghost3"].
      split; [reflexivity|]. split; [discriminate|].
      intros v [<-|[]]; eexists; split; reflexivity.
Defined.

(** X15. A chain that consists of one or two Terminals and nothing else
    passes every chain rule: both positions are edges, and a pair with a
    Terminal is skipped by the voltage rule. *)
Theorem terminal_only_chain_passes (objs : dict ObjectIR) (items : list PyVal) :
  (1 <= List.length items <= 2)%nat ->
  Forall (fun v => is_dict v = true) items ->
  check_chain objs (PList items) = inr tt /\
  check_chain objs (PTuple items) = inr tt.
Proof.
  intros Hlen Hall.
  destruct items as [|a [|b [|c items]]]; simpl in Hlen; try lia.
  - inversion Hall as [|? ? Ha _]; subst.
    unfold check_chain. simpl. rewrite Ha. split; reflexivity.
  - inversion Hall as [|? ? Ha Hall']; subst.
    inversion Hall' as [|? ? Hb _]; subst.
    unfold check_chain. simpl. rewrite Ha, Hb. split; reflexivity.
Qed.

Lemma terminal_only_chain_passes_witness :
  check_chain [] (PList [open_end; stub "feeder"]) = inr tt.
Proof.
  refine (proj1 (terminal_only_chain_passes [] [open_end; stub "feeder"] _ _)).
  - simpl. lia.
  - repeat constructor.
Defined.

(** *** [validate] on what [parse] returns *)

(** X16. On an IR returned by [parse], [validate] raises TypeError as
    soon as the text has one CONNECT statement (it takes the stored
    (list, position) pair for the chain and looks the list up in the
    table); without any CONNECT it returns normally exactly when the table
    holds no BREAKER, and raises E.PROT.BRK_UNUSED otherwise. *)
Theorem validate_after_parse
        (_parser_parse : string -> (option Z * option Z) + Tree)
        (text : string) (ir : IR) :
  parse _parser_parse text = inr ir ->
  (series ir <> [] -> validate_result ir = inl TypeError) /\
  (series ir = [] ->
   (validate_result ir = inr tt <->
    forall oid o, In (oid, o) (objects ir) -> obj_type o <> "BREAKER") /\
   (validate_result ir = inr tt \/
    validate_result ir = inl E_PROT_BRK_UNUSED)).
Proof.
  intros Hp. split; [apply (validate_parsed_chain _ _ _ Hp)|].
  intros Hs.
  destruct (ir_steps_wf _ _ (parse_steps _ _ _ Hp)) as [Hwf _].
  { split; [constructor|apply Forall_nil]. }
  rewrite validate_result_eq. unfold validate_outcome.
  rewrite (dup_test_wf _ Hwf), Hs. simpl.
  unfold check_breakers. simpl. split.
  - rewrite first_error_ok, Forall_forall. split.
    + intros H oid o Hin Ht.
      assert (Hb : In oid (breakers (objects ir)))
        by (apply breakers_In; eauto).
      specialize (H oid Hb). discriminate H.
    + intros H oid Hb. apply breakers_In in Hb.
      destruct Hb as (o & Hin & Ht). exfalso. exact (H oid o Hin Ht).
  - destruct (first_error _ _) as [e|[]] eqn:E; [|auto].
    apply first_error_in in E. destruct E as (x & _ & Hx).
    right. simpl in Hx. congruence.
Qed.

Lemma validate_after_parse_witness :
  validate_result c1_ir = inl TypeError.
Proof.
  apply (proj1 (validate_after_parse c1_parser c1_text c1_ir c1_parse)).
  discriminate.
Defined.

(* ================================================================== *)
(** ** Further properties of the rule methods *)

(** *** Strings *)

Lemma str_drop_last_append (s : string) (c : ascii) :
  str_drop_last (s ++ String c "") = s.
Proof.
  induction s as [|a s IH]; simpl; [reflexivity|].
  rewrite IH. destruct s; reflexivity.
Qed.

(** X17. The STRING callback strips exactly the two delimiters: a token
    whose text is a body between one opening and one closing character
    becomes the body, whatever the body holds (quotes included), and the
    IR is not touched. *)
Theorem STRING_strips_delimiters (q q' : ascii) (body : string) (s : IR) :
  ToIR.transform (Tok "STRING" (String q (body ++ String q' ""))) s
  = (inr (PStr body), s).
Proof.
  simpl. unfold ToIR.visit, lift, ToIR.STRING, ToIR.tok_value. simpl.
  rewrite str_drop_last_append. reflexivity.
Qed.

(** *** CONNECT *)

(** X18. A CONNECT statement never raises once its children are
    transformed; it appends one entry to the chain list and changes
    nothing else.  The entry pairs the position of the statement with the
    list of ALL the transformed children of the node (lark passes them as
    one list, which is the "last list among the arguments"). *)
Theorem connect_stmt_records_children (ch : list Tree) (m : Z * Z)
        (s s1 : IR) (vs : list PyVal) :
  transform_children ch s = (inr vs, s1) ->
  ToIR.transform (Node "connect_stmt" ch m) s
  = (inr PNone,
     mkIR (objects s1) (series s1 ++ [PTuple [PList vs; loc_of m]])
          (pages s1) (style s1) (meta s1)).
Proof.
  intros Hch. rewrite transform_node. unfold bind. rewrite Hch. reflexivity.
Qed.

Lemma connect_stmt_records_children_witness :
  ToIR.transform (connect_b1_l1 3) IR_new
  = (inr PNone,
     mkIR [] [PTuple [PList [PToken "SP" " ";
                             PList [PStr "b1"; PToken "SP" " "; PStr "l1"]];
                      loc_of (3%Z, 1%Z)]] [] [] []).
Proof.
  exact (connect_stmt_records_children
           [SP; Node "list_id" [Tok "ID" "b1"; SP; Tok "ID" "l1"] (3%Z, 16%Z)]
           (3%Z, 1%Z) IR_new IR_new
           [PToken "SP" " "; PList [PStr "b1"; PToken "SP" " "; PStr "l1"]]
           eq_refl).
Defined.

(** *** Number lists and extension blocks *)

Lemma floats_of_floats (xs : list Float64.float) :
  ToIR.floats_of (map PNum xs) = inr (map PNum xs).
Proof.
  induction xs as [|x xs IH]; simpl; [reflexivity|].
  rewrite IH. reflexivity.
Qed.

(** X19. [list_num] leaves a list of floats as it is: the values the
    NUM callback has produced go through [float(x)] unchanged, in order,
    and the method does not fail on them. *)
Theorem list_num_keeps_floats (m : Z * Z) (xs : list Float64.float) :
  ToIR.list_num m (map PNum xs) = inr (PList (map PNum xs)).
Proof. unfold ToIR.list_num. rewrite floats_of_floats. reflexivity. Qed.

(** X20. [opt_kvs] is declared inline with a first parameter named
    [meta]: the first child lands there and is dropped, the remaining
    key/value pairs build the dict (the last pair of a key wins); with no
    child at all the call is a TypeError. *)
Theorem opt_kvs_drops_first_child (first : PyVal) (l : list (string * PyVal)) :
  (exists d, ToIR.opt_kvs (first :: pairs_of l) = inr (PDict d) /\
             dict_wf d /\
             forall k, dict_get k d = dict_get k (rev l)) /\
  ToIR.opt_kvs [] = inl TypeError.
Proof.
  split; [|reflexivity].
  exists (dict_update [] l). unfold ToIR.opt_kvs, _pairs_to_dict.
  rewrite pairs_to_dict_from_update. split; [reflexivity|].
  split; [apply dict_update_wf; constructor|].
  intros k. rewrite dict_get_update_last.
  destruct (dict_get k (rev l)); reflexivity.
Qed.

(** *** ADD_BUS, from the tree to the table *)

(** X21. An ADD_BUS statement whose id text is not empty, is none of
    the literal fragments the scan filters out, and is not registered
    yet, and whose kv text reads as the float [x], registers one object:
    kind BUS, attributes id (the text) and kv (the float), in that order,
    stored under the id with the position of the statement. *)
Theorem add_bus_registers (oid kv : string) (x : Float64.float) (m : Z * Z)
        (s : IR) :
  oid <> "" ->
  in_strs (PStr oid) ["id="; ","; "kv="; " "] = false ->
  py_float (PToken "NUM" kv) = inr x ->
  dict_mem oid (objects s) = false ->
  ToIR.transform (add_bus_tree oid kv m) s
  = (inr PNone,
     ToIR.set_objects
       (dict_set oid (mkObjectIR oid "BUS"
                                 [("id", PStr oid); ("kv", PNum x)]
                                 (loc_of m))) s).
Proof.
  intros Hne Hlit Hkv Hm.
  assert (Hparams :
    ToIR.transform (Node "bus_params" [Tok "ID" oid; SP; Tok "NUM" kv] m) s
    = (inr (PList [PStr oid; PNum x]), s)).
  { rewrite transform_node. unfold bind. simpl transform_children.
    unfold bind, ret, ToIR.visit, lift, ToIR.NUM, ebind. simpl.
    unfold py_float in Hkv.
    destruct (FloatParse.parse (strip is_space kv)) as [x0|]; [|discriminate].
    injection Hkv as ->. unfold raise, ret. simpl.
    unfold ToIR.star, ToIR.bus_params, ToIR.flatten, lift. simpl.
    change (ToIR.tok_value (PToken "ID" oid)) with oid.
    simpl in Hlit. rewrite Hlit. reflexivity. }
  assert (Hbus :
    ToIR.transform
      (Node "add_bus"
         [SP; Node "bus_params" [Tok "ID" oid; SP; Tok "NUM" kv] m] m) s
    = (inr (OBJ "BUS" [("id", PStr oid); ("kv", PNum x)] m), s)).
  { rewrite transform_node. unfold bind.
    rewrite transform_children_cons. simpl ToIR.transform at 1.
    unfold ret at 1. rewrite transform_children_cons, Hparams. simpl.
    reflexivity. }
  unfold add_bus_tree. rewrite transform_node. unfold bind.
  rewrite transform_children_cons, Hbus. simpl transform_children.
  unfold ret at 1.
  change (ToIR.rule_callback "add_stmt") with (Some (ToIR.starM ToIR.add_stmt)).
  unfold ToIR.visit, ToIR.starM.
  rewrite (add_stmt_found m
             [PList [OBJ "BUS" [("id", PStr oid); ("kv", PNum x)] m]]
             (PStr "OBJ") m "BUS" oid
             [("id", PStr oid); ("kv", PNum x)] s eq_refl eq_refl Hne).
  rewrite Hm. reflexivity.
Qed.

Lemma add_bus_registers_witness :
  ToIR.transform (add_bus_tree "main-138" "138" (1%Z, 1%Z)) IR_new
  = (inr PNone,
     mkIR [("main-138",
            mkObjectIR "main-138" "BUS"
              [("id", PStr "main-138"); ("kv", PNum (Float64.of_Z 138))]
              (loc_of (1%Z, 1%Z)))] [] [] [] []).
Proof.
  rewrite (add_bus_registers "main-138" "138" (Float64.of_Z 138) (1%Z, 1%Z)
             IR_new).
  - reflexivity.
  - discriminate.
  - reflexivity.
  - vm_compute. reflexivity.
  - reflexivity.
Defined.

(** *** Parameter scans *)

Lemma scan_step_item (lits toks : list string) (ws : bool)
      (found : list PyVal) (v : PyVal) :
  in_strs (PToken "SP" " ") lits = true ->
  existsb (String.eqb "SP") toks = false ->
  (forall s, in_strs (PStr s) all_literals = false ->
             in_strs (PStr s) lits = false) ->
  scanned_item v ->
  ToIR.scan_step lits toks ws found v
  = inr (found ++ (if negb (is_token v) then [v] else [])).
Proof.
  intros Hsp Htok Hsub [Hn | [(s & -> & Hs) | -> ]]; unfold ToIR.scan_step.
  - destruct v; simpl in Hn; try discriminate; reflexivity.
  - simpl is_str. rewrite (Hsub s Hs). reflexivity.
  - rewrite Hsp, Htok. simpl. rewrite andb_false_r, app_nil_r. reflexivity.
Qed.

Lemma scan_items (lits toks : list string) (ws : bool)
      (items found : list PyVal) :
  in_strs (PToken "SP" " ") lits = true ->
  existsb (String.eqb "SP") toks = false ->
  (forall s, in_strs (PStr s) all_literals = false ->
             in_strs (PStr s) lits = false) ->
  Forall scanned_item items ->
  ToIR.fold_err (ToIR.scan_step lits toks ws) items found
  = inr (found ++ values_of items).
Proof.
  intros Hsp Htok Hsub Hall. revert found.
  induction Hall as [|v items Hv _ IH]; intros found; simpl.
  - rewrite app_nil_r. reflexivity.
  - rewrite (scan_step_item lits toks ws found v Hsp Htok Hsub Hv).
    simpl. rewrite IH. unfold values_of. simpl.
    destruct (negb (is_token v)); simpl; rewrite <- app_assoc; reflexivity.
Qed.

Lemma scan_values (lits toks : list string) (ws : bool) (items : list PyVal) :
  in_strs (PToken "SP" " ") lits = true ->
  existsb (String.eqb "SP") toks = false ->
  (forall s, in_strs (PStr s) all_literals = false ->
             in_strs (PStr s) lits = false) ->
  Forall scanned_item items ->
  ToIR.scan lits toks ws [PList items] = inr (values_of items).
Proof.
  intros Hsp Htok Hsub Hall. unfold ToIR.scan, ToIR.flatten. simpl.
  rewrite app_nil_r. apply (scan_items lits toks ws items [] Hsp Htok Hsub Hall).
Qed.

Ltac literal_subset :=
  let s := fresh "s" in let H := fresh "H" in
  intros s H; unfold in_strs, all_literals in *; simpl in *;
  repeat match goal with
         | H : (_ || _)%bool = false |- _ =>
             apply orb_false_iff in H; destruct H
         end;
  repeat (apply orb_false_iff; split); assumption || reflexivity.

(** X22. The parameter rules of BAY, COUPLER, BREAKER, DISCONNECTOR,
    TRANSFORMER and LINE, given children that are converted values
    (numbers and plain strings) separated by SP tokens, return exactly the
    values, in the order of the statement, when there are as many as the
    rule expects; the separators are dropped. *)
Theorem param_scanners_keep_values
        (f : Z * Z -> list PyVal -> exn + PyVal) (n : nat)
        (m : Z * Z) (items : list PyVal) :
  In (f, n) param_scanners ->
  Forall scanned_item items ->
  List.length (values_of items) = n ->
  f m [PList items] = inr (PList (values_of items)).
Proof.
  intros Hin Hall Hlen. unfold param_scanners in Hin. simpl in Hin.
  repeat (destruct Hin as [[= <- <-]|Hin];
    [ match goal with
      | |- ?g m _ = _ => unfold g
      end;
      rewrite scan_values;
      [ unfold ebind; try unfold ToIR.first_or_all;
        rewrite Hlen, Nat.leb_refl;
        rewrite firstn_all2 by (rewrite Hlen; apply Nat.le_refl);
        reflexivity
      | reflexivity | reflexivity | literal_subset | exact Hall ]
    | ]).
  destruct Hin.
Qed.

Lemma param_scanners_keep_values_witness :
  ToIR.line_params (2%Z, 10%Z)
    [PList [PStr "l1"; PToken "SP" " "; PNum (Float64.of_Z 138);
            PToken "SP" " "; PStr "OHL"; PToken "SP" " ";
            PNum (Float64.of_Z 10); PToken "SP" " ";
            PNum (Float64.of_Z 1000)]]
  = inr (PList [PStr "l1"; PNum (Float64.of_Z 138); PStr "OHL";
                PNum (Float64.of_Z 10); PNum (Float64.of_Z 1000)]).
Proof.
  apply (param_scanners_keep_values ToIR.line_params 5 (2%Z, 10%Z)).
  - simpl. auto 10.
  - repeat (apply Forall_cons;
            [first [ left; reflexivity
                   | right; right; reflexivity
                   | right; left; eexists; split; reflexivity ]|]).
    apply Forall_nil.
  - reflexivity.
Defined.

Lemma bay_params_too_few (m : Z * Z) (items : list PyVal) :
  Forall scanned_item items ->
  (List.length (values_of items) < 4)%nat ->
  ToIR.bay_params m [PList items] = inr (PList [PNone; PNone; PNone; PNone]).
Proof.
  intros Hall Hlen. unfold ToIR.bay_params.
  rewrite scan_values; [|reflexivity|reflexivity|literal_subset|exact Hall].
  unfold ebind. apply Nat.leb_gt in Hlen. rewrite Hlen. reflexivity.
Qed.

Lemma add_stmt_found_missing (m : Z * Z) (s : IR) :
  ToIR.add_stmt m
    [PList [OBJ "BAY" [("id", PNone); ("kind", PNone); ("kv", PNone);
                       ("bus", PNone)] m]] s
  = (inl (ToIR.Missing_id "BAY"), s).
Proof. reflexivity. Qed.

(** X23. An ADD_BAY statement whose parameter rule finds fewer than
    four values is not reported as malformed: [bay_params] answers four
    Nones, [add_bay] builds attributes that are all None, and [add_stmt]
    raises "Missing id in BAY"; the IR is left as it was. *)
Theorem add_bay_too_few_values (params : list Tree) (m : Z * Z)
        (items : list PyVal) (s : IR) :
  transform_children params s = (inr items, s) ->
  Forall scanned_item items ->
  (List.length (values_of items) < 4)%nat ->
  ToIR.transform (add_bay_tree params m) s
  = (inl (VisitError "add_stmt" (ToIR.Missing_id "BAY")), s).
Proof.
  intros Hch Hall Hlen.
  assert (Hparams :
    ToIR.transform (Node "bay_params" params m) s
    = (inr (PList [PNone; PNone; PNone; PNone]), s)).
  { rewrite transform_node. unfold bind. rewrite Hch.
    change (ToIR.rule_callback "bay_params")
      with (Some (ToIR.star ToIR.bay_params)).
    unfold ToIR.visit, ToIR.star.
    rewrite (bay_params_too_few m items Hall Hlen). reflexivity. }
  assert (Hbay :
    ToIR.transform (Node "add_bay" [SP; Node "bay_params" params m] m) s
    = (inr (OBJ "BAY" [("id", PNone); ("kind", PNone); ("kv", PNone);
                       ("bus", PNone)] m), s)).
  { rewrite transform_node. unfold bind.
    rewrite transform_children_cons. simpl ToIR.transform at 1.
    unfold ret at 1. rewrite transform_children_cons, Hparams. simpl.
    reflexivity. }
  unfold add_bay_tree. rewrite transform_node. unfold bind.
  rewrite transform_children_cons, Hbay. simpl transform_children.
  unfold ret at 1.
  change (ToIR.rule_callback "add_stmt") with (Some (ToIR.starM ToIR.add_stmt)).
  unfold ToIR.visit, ToIR.starM.
  rewrite (add_stmt_found_missing m s). reflexivity.
Qed.

Lemma add_bay_too_few_values_witness :
  run_transformer
    (add_bay_tree [Tok "ID" "bay1"; SP; Tok "NUM" "138"] (1%Z, 1%Z))
  = inl (VisitError "add_stmt" (ToIR.Missing_id "BAY")).
Proof.
  unfold run_transformer.
  rewrite (add_bay_too_few_values
             [Tok "ID" "bay1"; SP; Tok "NUM" "138"] (1%Z, 1%Z)
             [PStr "bay1"; PToken "SP" " "; PNum (Float64.of_Z 138)] IR_new).
  - reflexivity.
  - vm_compute. reflexivity.
  - apply Forall_cons; [right; left; eexists; split; reflexivity|].
    apply Forall_cons; [right; right; reflexivity|].
    apply Forall_cons; [left; reflexivity|apply Forall_nil].
  - simpl. lia.
Defined.
